(** * ZAPPY [learning/pytorch_runner]: a shallow embedding and its properties

    The development follows the three source modules of the package:
    - [config.py]  : [TrainingConfig], [from_file], [_load_json], [_resolve];
    - [trainer.py] : [RunnerContext], [TrainingSession] with [run],
      [_run_torch], [_simulate], [_write_checkpoint],
      [_select_torch_device] and [_log];
    - [main.py]    : [main] and the parsing of the [--devices] argument.

    Python values are modelled as the code has them: [int] as [Z], [float] as
    IEEE binary64 ([PrimFloat.float]), [str] as [string], a [dict] with string
    keys as [gmap string _], an exception as a value of [exn].  Stateful code
    is written in a state-and-exception monad over the part of the world the
    session touches. *)

From Stdlib Require Import ZArith String Ascii List Floats Lia DecimalString.
From stdpp Require Import gmap strings list fin_maps sorting.

Set Warnings "-register-all,-inexact-float".

Local Open Scope Z_scope.

(** ** The Python runtime: exceptions, JSON values, builtins *)

Module Py.

(** The exceptions the modelled code can raise. *)
Inductive exn : Type :=
| KeyError (key : string)
| TypeError
| ValueError
| OverflowError
| AttributeError
| IndexError
| OSError
| JSONDecodeError
| RuntimeError.

(** [inl e]: the computation raised [e]; [inr x]: it returned [x]. *)
Definition result (A : Type) : Type := (exn + A)%type.

#[global] Instance result_ret : MRet result := fun _ x => inr x.

#[global] Instance result_bind : MBind result :=
  fun _ _ f m => match m with inl e => inl e | inr x => f x end.

#[global] Instance result_throw : MThrow exn result := fun _ e => inl e.

(** What [json.load] returns, which is also the type of the values the
    configuration code handles: [None], [bool], [int], [float], [str], [list]
    and [dict] with string keys. *)
Inductive json : Type :=
| JNull
| JBool (b : bool)
| JInt (z : Z)
| JFloat (f : float)
| JStr (s : string)
| JArr (l : list json)
| JObj (m : gmap string json).

(** What the interpreter and the operating system provide and the package
    takes as given: the parsing of numeric strings by [int] and [float]
    ([None]: [ValueError]), reading and decoding a JSON file, and
    [os.path.realpath] behind [Path.resolve]. *)
Record Host (Path : Type) : Type := {
  int_of_str : string -> option Z;
  float_of_str : string -> option float;
  read_json : Path -> result json;
  realpath : Path -> result Path;
}.
Arguments int_of_str {Path} _ _.
Arguments float_of_str {Path} _ _.
Arguments read_json {Path} _ _.
Arguments realpath {Path} _ _.

(** [int(x)] on a float: truncation towards zero; [nan] and the infinities
    raise. *)
Definition int_of_float (f : float) : result Z :=
  match Prim2SF f with
  | S754_zero _ => mret 0
  | S754_infinity _ => mthrow OverflowError
  | S754_nan => mthrow ValueError
  | S754_finite s m e =>
      let mag := match e with
                 | Z0 => Zpos m
                 | Zpos k => Z.shiftl (Zpos m) (Zpos k)
                 | Zneg k => Z.shiftr (Zpos m) (Zpos k)
                 end in
      mret (if s then - mag else mag)
  end.

(** [float(n)] on an int: the nearest binary64 value, ties to even;
    [OverflowError] when [n] is out of range. *)
Definition float_of_int (z : Z) : result float :=
  match binary_normalize prec emax z 0 false with
  | S754_infinity _ => mthrow OverflowError
  | sf => mret (SF2Prim sf)
  end.

(** The builtin [int(v)]. *)
Definition int_ {Path} (h : Host Path) (v : json) : result Z :=
  match v with
  | JInt z => mret z
  | JBool b => mret (if b then 1 else 0)
  | JFloat f => int_of_float f
  | JStr s => match int_of_str h s with Some z => mret z | None => mthrow ValueError end
  | JNull | JArr _ | JObj _ => mthrow TypeError
  end.

(** The builtin [float(v)]. *)
Definition float_ {Path} (h : Host Path) (v : json) : result float :=
  match v with
  | JFloat f => mret f
  | JInt z => float_of_int z
  | JBool b => mret (if b then 1%float else 0%float)
  | JStr s => match float_of_str h s with Some f => mret f | None => mthrow ValueError end
  | JNull | JArr _ | JObj _ => mthrow TypeError
  end.

(** [str(n)] on an int: its decimal numeral, with a leading minus sign when
    negative. *)
Definition str_of_int (z : Z) : string := NilZero.string_of_int (Z.to_int z).

(** [data[key]]: subscripting by a string. *)
Definition getitem (data : json) (key : string) : result json :=
  match data with
  | JObj m => match m !! key with Some v => mret v | None => mthrow (KeyError key) end
  | _ => mthrow TypeError
  end.

(** [data.get(key, default)]. *)
Definition get (data : json) (key : string) (dflt : json) : result json :=
  match data with
  | JObj m => mret (default dflt (m !! key))
  | _ => mthrow AttributeError
  end.

(** [s.split(sep)] for a one-character separator: the pieces between the
    separators, empty ones included; always at least one piece. *)
Fixpoint split (sep : ascii) (s : string) : list string :=
  match s with
  | EmptyString => [EmptyString]
  | String c rest =>
      if Ascii.eqb c sep then EmptyString :: split sep rest
      else match split sep rest with
           | tok :: toks => String c tok :: toks
           | [] => [String c EmptyString]
           end
  end.

(** [s.startswith(p)]. *)
Definition startswith (s p : string) : bool := String.prefix p s.

(** [c in s] for a one-character string [c]. *)
Fixpoint contains (c : ascii) (s : string) : bool :=
  match s with
  | EmptyString => false
  | String d rest => Ascii.eqb d c || contains c rest
  end.

(** [range(n)]: [0, 1, ..., n-1], empty when [n <= 0]. *)
Definition range (n : Z) : list Z := Z.of_nat <$> seq 0 (Z.to_nat n).

End Py.

(** ** [pathlib]: pure POSIX paths *)

Module Pathlib.

(** The root of a path: none (a relative path), ["/"], or the ["//"] that
    POSIX keeps apart. *)
Inductive Root : Type := NoRoot | Slash | DoubleSlash.

(** A parsed path: its root and its components. *)
Record Path : Type := mkPath { root : Root; parts : list string }.

#[global] Instance Root_eq_dec : EqDecision Root.
Proof. solve_decision. Defined.

#[global] Instance Path_eq_dec : EqDecision Path.
Proof. solve_decision. Defined.

(** [posixpath.splitroot]: exactly two leading slashes make the root ["//"],
    one or at least three make it ["/"]. *)
Definition splitroot (s : string) : Root * string :=
  match s with
  | String "/" rest1 =>
      match rest1 with
      | String "/" rest2 =>
          match rest2 with
          | String "/" _ => (Slash, rest1)
          | _ => (DoubleSlash, rest2)
          end
      | _ => (Slash, rest1)
      end
  | _ => (NoRoot, s)
  end.

(** [Path(s)]: empty components and ["."] components are dropped. *)
Definition of_str (s : string) : Path :=
  let '(r, rel) := splitroot s in
  {| root := r;
     parts := filter (fun x => x ≠ "" ∧ x ≠ ".") (Py.split "/" rel) |}.

(** [p.is_absolute()]. *)
Definition is_absolute (p : Path) : bool :=
  match root p with NoRoot => false | _ => true end.

(** [p.parent]: the path without its last component; a path with no
    component is its own parent. *)
Definition parent (p : Path) : Path :=
  match parts p with
  | [] => p
  | _ => {| root := root p; parts := removelast (parts p) |}
  end.

(** [p / q]: an absolute [q] replaces [p]. *)
Definition join (p q : Path) : Path :=
  if is_absolute q then q
  else {| root := root p; parts := (parts p ++ parts q)%list |}.

(** [p.name]: the last component, empty when there is none. *)
Definition name (p : Path) : string := List.last (parts p) "".

(** The text of a root. *)
Definition Root_str (r : Root) : string :=
  match r with NoRoot => "" | Slash => "/" | DoubleSlash => "//" end.

(** [str(p)]. *)
Definition to_str (p : Path) : string :=
  match root p, parts p with
  | NoRoot, [] => "."
  | r, ps => Root_str r +:+ String.concat "/" ps
  end.

(** The path with its first [k] components, for [k = 0 .. length]: the
    directories [mkdir(parents=True)] goes through, the path itself last. *)
Definition upto (p : Path) : list Path :=
  (fun k => {| root := root p; parts := take k (parts p) |})
    <$> seq 0 (S (length (parts p))).

(** [os.path.realpath] on a file system without symbolic links, with
    current directory [cwd]: the path made absolute and its [".."]
    components resolved (at the root, [".."] stays at the root). *)
Definition lexical_realpath (cwd p : Path) : Path :=
  let abs := if is_absolute p then parts p else (parts cwd ++ parts p)%list in
  {| root := Slash;
     parts := rev (fold_left (fun acc x => if decide (x = "..") then tail acc else x :: acc)
                             abs []) |}.

End Pathlib.

(** ** [config.py] *)

Module Config.
Import Py Pathlib.

(** The dataclass [TrainingConfig].  [notes] holds whatever [data.get("notes")]
    returned: [JNull] is Python's [None]. *)
Record TrainingConfig : Type := {
  dataset_index : Path;
  checkpoint_dir : Path;
  steps : Z;
  batch_size : Z;
  learning_rate : float;
  input_dim : Z;
  output_dim : Z;
  hidden_dim : Z;
  notes : json;
}.

Section WithHost.
Variable h : Host Path.

(** [_load_json]: open the file and decode it. *)
Definition _load_json (path : Path) : result json := read_json h path.

(** [_resolve(base, value)]: [Path(value)] accepts a [str] only. *)
Definition _resolve (base : Path) (value : json) : result Path :=
  match value with
  | JStr s =>
      let path := of_str s in
      if is_absolute path then mret path
      else realpath h (join (parent base) path)
  | _ => mthrow TypeError
  end.

(** [TrainingConfig.from_file]; the keyword arguments are evaluated in the
    order written. *)
Definition from_file (path : Path) : result TrainingConfig :=
  data ← _load_json path;
  v ← getitem data "dataset_index";
  dataset_index ← _resolve path v;
  v ← getitem data "checkpoint_dir";
  checkpoint_dir ← _resolve path v;
  v ← get data "steps" (JInt 100);
  steps ← int_ h v;
  v ← get data "batch_size" (JInt 32);
  batch_size ← int_ h v;
  v ← get data "learning_rate" (JFloat 0.001);
  learning_rate ← float_ h v;
  v ← get data "input_dim" (JInt 128);
  input_dim ← int_ h v;
  v ← get data "output_dim" (JInt 64);
  output_dim ← int_ h v;
  v ← get data "hidden_dim" (JInt 128);
  hidden_dim ← int_ h v;
  notes ← get data "notes" JNull;
  mret {| dataset_index := dataset_index;
          checkpoint_dir := checkpoint_dir;
          steps := steps;
          batch_size := batch_size;
          learning_rate := learning_rate;
          input_dim := input_dim;
          output_dim := output_dim;
          hidden_dim := hidden_dim;
          notes := notes |}.

End WithHost.

End Config.

(** ** [trainer.py] *)

Module Trainer.
Import Py Pathlib Config.

(** The dataclass [RunnerContext]. *)
Record RunnerContext : Type := {
  config : TrainingConfig;
  devices : list string;
  weights : option Path;
  profile : string;
  log_file : Path;
}.

(** The part of the [torch] library the session calls.  [build] stands for the
    construction of the model, optimizer and loss on a device, [train_step]
    for one iteration of the loop body up to the scalar [loss] of that
    iteration; either may raise. *)
Record Torch : Type := {
  cuda_is_available : bool;
  build : string -> TrainingConfig -> result unit;
  train_step : string -> TrainingConfig -> Z -> result float;
}.

(** The process environment of a session: the module-level [torch] ([None]
    when the import failed, i.e. [TORCH_AVAILABLE] is false), the system clock
    as the sequence of its successive readings, and [time.strftime]
    ([utc] tells [time.gmtime()] from local time). *)
Record Sys : Type := {
  torch : option Torch;
  time_at : nat -> float;
  strftime : string -> bool -> float -> string;
}.

(** One line of the log file: the dict [_log] dumps. *)
Record EventRecord : Type := {
  event : string;
  timestamp : string;
  payload : gmap string json;
}.

(** What a session reads and writes: the clock (by the number of readings
    taken), the lines appended to [ctx.log_file] in order, the directories
    made, the JSON files written (each path once, the latest first), and
    [os.environ]. *)
Record World : Type := {
  ticks : nat;
  log : list EventRecord;
  dirs : list Path;
  files : list (Path * json);
  environ : gmap string string;
}.

(** The content of the file at [p], if one was written. *)
Fixpoint file_at (p : Path) (fs : list (Path * json)) : option json :=
  match fs with
  | [] => None
  | (q, v) :: fs' => if decide (q = p) then Some v else file_at p fs'
  end.

(** A computation returns or raises, and leaves a world behind either way. *)
Definition M (A : Type) : Type := World -> result A * World.

#[global] Instance M_ret : MRet M := fun _ x w => (inr x, w).

#[global] Instance M_bind : MBind M :=
  fun _ _ f m w =>
    match m w with
    | (inl e, w') => (inl e, w')
    | (inr x, w') => f x w'
    end.

#[global] Instance M_throw : MThrow exn M := fun _ e w => (inl e, w).

(** A pure computation inside a session. *)
Definition lift {A} (r : result A) : M A := fun w => (r, w).

(** [for x in l: s = body(x, s)]: a loop over [l] whose body updates the local
    variables [s]. *)
Fixpoint for_each {A S} (l : list A) (body : A -> S -> M S) (s : S) : M S :=
  match l with
  | [] => mret s
  | x :: l' => s' ← body x s; for_each l' body s'
  end.

(** [time.sleep]: nothing the model records changes. *)
Definition sleep (seconds : float) : M unit := mret tt.

(** [p.mkdir(parents=True, exist_ok=True)]. *)
Definition mkdir_parents (p : Path) : M unit :=
  fun w => (inr tt, {| ticks := ticks w; log := log w;
                       dirs := list_union (upto p) (dirs w);
                       files := files w; environ := environ w |}).

(** [with p.open("w") as f: json.dump(v, f)]: the file is made, or its old
    content replaced. *)
Definition write_json (p : Path) (v : json) : M unit :=
  fun w => (inr tt, {| ticks := ticks w; log := log w; dirs := dirs w;
                       files := (p, v) :: filter (fun e => e.1 ≠ p) (files w);
                       environ := environ w |}).

(** [os.environ[k] = v]. *)
Definition setenv (k v : string) : M unit :=
  fun w => (inr tt, {| ticks := ticks w; log := log w; dirs := dirs w;
                       files := files w; environ := <[k := v]> (environ w) |}).

(** Appending one line to the log file. *)
Definition append_line (r : EventRecord) : M unit :=
  fun w => (inr tt, {| ticks := ticks w; log := log w ++ [r]; dirs := dirs w;
                       files := files w; environ := environ w |}).

Section Session.
Variable sys : Sys.

(** [time.time()]: the next reading of the clock. *)
Definition time_time : M float :=
  fun w => (inr (time_at sys (ticks w)),
            {| ticks := S (ticks w); log := log w; dirs := dirs w;
               files := files w; environ := environ w |}).

(** [TrainingSession.__init__]. *)
Definition __init__ (ctx : RunnerContext) : M unit :=
  mkdir_parents (parent (log_file ctx)).

(** [_log]. *)
Definition _log (ctx : RunnerContext) (event : string) (payload : gmap string json) : M unit :=
  t ← time_time;
  append_line {| event := event;
                 timestamp := strftime sys "%Y-%m-%dT%H:%M:%S%z" false t;
                 payload := payload |}.

(** [_write_checkpoint]. *)
Definition _write_checkpoint (ctx : RunnerContext) : M unit :=
  t ← time_time;
  seconds ← lift (int_of_float t);
  let id := "checkpoint-" +:+ str_of_int seconds in
  t' ← time_time;
  let meta : gmap string json :=
    {[ "id" := JStr id;
       "model" := JStr "pytorch_runner_stub";
       "created_at" := JStr (strftime sys "%Y-%m-%dT%H:%M:%SZ" true t');
       "training_step" := JInt (steps (config ctx));
       "devices" := JArr (JStr <$> devices ctx);
       "notes" := notes (config ctx) ]} in
  mkdir_parents (checkpoint_dir (config ctx));;
  let meta_path := join (checkpoint_dir (config ctx)) (of_str (id +:+ ".meta.json")) in
  write_json meta_path (JObj meta);;
  _log ctx "checkpoint" {[ "meta" := JStr (to_str meta_path) ]}.

(** The body of the loop of [_simulate]; [loss] is the local variable it
    updates. *)
Definition _simulate_step (ctx : RunnerContext) (step : Z) (loss : float) : M float :=
  let loss := (loss * 0.99)%float in
  (if (step mod 10 =? 0)%Z
   then _log ctx "step" {[ "step" := JInt step;
                           "loss" := JFloat loss;
                           "simulated" := JBool true ]}
   else mret tt);;
  sleep 0.01;;
  mret loss.

(** [_simulate]. *)
Definition _simulate (ctx : RunnerContext) : M unit :=
  for_each (range (steps (config ctx))) (_simulate_step ctx) 1%float;;
  _write_checkpoint ctx.

(** [_select_torch_device]. *)
Definition _select_torch_device (t : Torch) (ctx : RunnerContext) : M string :=
  match devices ctx with
  | preferred :: _ =>
      if startswith preferred "cuda" && cuda_is_available t then
        ordinal ← (if contains ":" preferred
                   then match split ":" preferred !! 1%nat with
                        | Some o => mret o
                        | None => mthrow IndexError
                        end
                   else mret "0");
        setenv "CUDA_VISIBLE_DEVICES" ordinal;;
        mret "cuda:0"
      else mret "cpu"
  | [] => mret "cpu"
  end.

(** The body of the loop of [_run_torch] on [device]: the batch, the forward
    and backward pass and the optimizer step are [train_step]. *)
Definition _run_torch_step (t : Torch) (ctx : RunnerContext) (device : string)
    (step : Z) (_ : unit) : M unit :=
  loss ← lift (train_step t device (config ctx) step);
  if (step mod 10 =? 0)%Z
  then _log ctx "step" {[ "step" := JInt step; "loss" := JFloat loss ]}
  else mret tt.

(** [_run_torch]. *)
Definition _run_torch (t : Torch) (ctx : RunnerContext) : M unit :=
  device ← _select_torch_device t ctx;
  lift (build t device (config ctx));;
  for_each (range (steps (config ctx))) (_run_torch_step t ctx device) tt;;
  _write_checkpoint ctx.

(** [run]. *)
Definition run (ctx : RunnerContext) : M unit :=
  _log ctx "session_start" {[ "profile" := JStr (profile ctx);
                              "devices" := JArr (JStr <$> devices ctx) ]};;
  match torch sys with
  | Some t => _run_torch t ctx
  | None => _simulate ctx
  end;;
  _log ctx "session_complete" ∅.

End Session.

End Trainer.

(** ** [main.py] *)

Module Main.
Import Py Pathlib Config Trainer.

(** The [argparse.Namespace] that [parse_args] returns. *)
Record Namespace : Type := {
  arg_config : Path;
  arg_weights : option Path;
  arg_devices : string;
  arg_profile : string;
  arg_log_file : Path;
}.

(** The comprehension [[token for token in args.devices.split(",") if token]]:
    a [str] is true when it is not empty. *)
Definition device_tokens (arg : string) : list string :=
  filter (fun token => token ≠ "") (split "," arg).

(** The [RunnerContext] that [main] builds. *)
Definition context (config : TrainingConfig) (args : Namespace) : RunnerContext :=
  {| Trainer.config := config;
     devices := device_tokens (arg_devices args);
     weights := arg_weights args;
     profile := arg_profile args;
     log_file := arg_log_file args |}.

(** [main], after [parse_args]. *)
Definition main (h : Host Path) (sys : Sys) (args : Namespace) : M Z :=
  config ← lift (from_file h (arg_config args));
  let ctx := context config args in
  __init__ ctx;;
  run sys ctx;;
  mret 0.

End Main.

(** ** Reading a log *)

Module Obs.
Import Py Pathlib Config Trainer.

(** [data.get(key, dflt)] on the dict [m]. *)
Definition field (m : gmap string json) (key : string) (dflt : json) : json :=
  default dflt (m !! key).

(** The record [_log] writes when the clock has been read [tick] times. *)
Definition record_at (sys : Sys) (tick : nat) (event : string)
    (payload : gmap string json) : EventRecord :=
  {| event := event;
     timestamp := strftime sys "%Y-%m-%dT%H:%M:%S%z" false (time_at sys tick);
     payload := payload |}.

(** The world after the lines [recs] were appended, the clock read once for
    each. *)
Definition logged (w : World) (recs : list EventRecord) : World :=
  {| ticks := ticks w + length recs;
     log := log w ++ recs;
     dirs := dirs w;
     files := files w;
     environ := environ w |}.

(** The lines a computation appended, given the worlds before and after. *)
Definition emitted (w w' : World) : list EventRecord :=
  drop (length (log w)) (log w').

(** The step index and loss a [step] record carries. *)
Definition step_info (r : EventRecord) : option (Z * float) :=
  if String.eqb (event r) "step" then
    match payload r !! "step", payload r !! "loss" with
    | Some (JInt i), Some (JFloat x) => Some (i, x)
    | _, _ => None
    end
  else None.

(** The [step] records of a log, in order. *)
Definition step_events (l : list EventRecord) : list (Z * float) :=
  omap step_info l.

(** The loss variable of [_simulate] after [n] executions of [loss *= 0.99]. *)
Definition loss_after (n : nat) : float :=
  Nat.iter n (fun loss => (loss * 0.99)%float) 1%float.

(** The step indices at which both loops log: [step % 10 == 0]. *)
Definition logged_steps (n : Z) : list Z :=
  filter (fun step => step mod 10 = 0) (range n).

(** The [step] record of [_simulate] for step index [i]. *)
Definition simulated_step (sys : Sys) (tick : nat) (i : Z) : EventRecord :=
  record_at sys tick "step"
    {[ "step" := JInt i;
       "loss" := JFloat (loss_after (S (Z.to_nat i)));
       "simulated" := JBool true ]}.

(** The [step] record of [_run_torch] for step index [i] and loss [x]. *)
Definition torch_step (sys : Sys) (tick : nat) (i : Z) (x : float) : EventRecord :=
  record_at sys tick "step" {[ "step" := JInt i; "loss" := JFloat x ]}.

(** The JSON object [_write_checkpoint] dumps. *)
Definition checkpoint_meta (sys : Sys) (ctx : RunnerContext) (id : string)
    (created : float) : gmap string json :=
  {[ "id" := JStr id;
     "model" := JStr "pytorch_runner_stub";
     "created_at" := JStr (strftime sys "%Y-%m-%dT%H:%M:%SZ" true created);
     "training_step" := JInt (steps (config ctx));
     "devices" := JArr (JStr <$> devices ctx);
     "notes" := notes (config ctx) ]}.

(** The identifier [_write_checkpoint] derives from the whole seconds of the
    time it reads. *)
Definition checkpoint_id (seconds : Z) : string :=
  "checkpoint-" +:+ str_of_int seconds.

(** The path of the metadata file for that identifier. *)
Definition meta_path (ctx : RunnerContext) (seconds : Z) : Path :=
  join (checkpoint_dir (config ctx)) (of_str (checkpoint_id seconds +:+ ".meta.json")).

(** The world [_write_checkpoint] leaves when the clock reads a time whose
    whole seconds are [seconds]. *)
Definition checkpointed (sys : Sys) (ctx : RunnerContext) (seconds : Z)
    (w : World) : World :=
  {| ticks := 3 + ticks w;
     log := log w ++ [record_at sys (2 + ticks w) "checkpoint"
                        {[ "meta" := JStr (to_str (meta_path ctx seconds)) ]}];
     dirs := list_union (upto (checkpoint_dir (config ctx))) (dirs w);
     files := (meta_path ctx seconds,
               JObj (checkpoint_meta sys ctx (checkpoint_id seconds)
                       (time_at sys (1 + ticks w))))
                :: filter (fun e => e.1 ≠ meta_path ctx seconds) (files w);
     environ := environ w |}.

(** The loss [_run_torch] logs for step [i]: what [train_step] returned. *)
Definition torch_loss (t : Torch) (device : string) (cfg : TrainingConfig) (i : Z) : float :=
  match train_step t device cfg i with inr x => x | inl _ => 0%float end.

(** A world with its environment variables replaced. *)
Definition with_environ (w : World) (env : gmap string string) : World :=
  {| ticks := ticks w; log := log w; dirs := dirs w; files := files w; environ := env |}.

(** The [session_start] record of [run]. *)
Definition session_start (sys : Sys) (ctx : RunnerContext) (tick : nat) : EventRecord :=
  record_at sys tick "session_start"
    {[ "profile" := JStr (profile ctx); "devices" := JArr (JStr <$> devices ctx) ]}.

(** The [step] records of a session that runs on [device], the first written
    when the clock has been read [tick0] times. *)
Definition session_steps (sys : Sys) (ctx : RunnerContext) (device : string)
    (tick0 : nat) : list EventRecord :=
  imap (fun k i =>
          match torch sys with
          | None => simulated_step sys (tick0 + k) i
          | Some t => torch_step sys (tick0 + k) i (torch_loss t device (config ctx) i)
          end)
       (logged_steps (steps (config ctx))).

(** The world a completed [run] leaves, up to [os.environ]. *)
Definition completed (sys : Sys) (ctx : RunnerContext) (device : string)
    (seconds : Z) (w : World) : World :=
  let w2 := logged w (session_start sys ctx (ticks w)
                        :: session_steps sys ctx device (S (ticks w))) in
  logged (checkpointed sys ctx seconds w2)
         [record_at sys (3 + ticks w2) "session_complete" ∅].

(** The number of clock readings taken before [_write_checkpoint] reads the
    time, in a [run] that starts in [w]: those taken before, one for
    [session_start] and one for each [step] record. *)
Definition write_tick (ctx : RunnerContext) (w : World) : nat :=
  S (ticks w) + length (logged_steps (steps (config ctx))).

(** A path as [Path] makes it: no component is empty, is ["."] or holds a
    slash. *)
Definition normal (p : Path) : Prop :=
  Forall (fun x => x ≠ "" ∧ x ≠ "." ∧ contains "/" x = false) (parts p).

(** The checkpoint records of a log: the text each gives for the metadata
    file. *)
Definition checkpoint_info (r : EventRecord) : option string :=
  if String.eqb (event r) "checkpoint" then
    match payload r !! "meta" with
    | Some (JStr s) => Some s
    | _ => None
    end
  else None.


End Obs.

(** ** A concrete machine for the examples *)

Module Demo.
Import Py Pathlib Config Trainer Main.

(** A host with the single file [path], holding [data], and no symbolic link;
    the current directory is [/srv/zappy].  Of numeric strings it reads plain
    decimal numerals as [int]s and nothing as a [float]; the examples hold
    none. *)
Definition host (path : Path) (data : json) : Host Path :=
  {| int_of_str := fun s => Z.of_int <$> NilZero.int_of_string s;
     float_of_str := fun _ => None;
     read_json := fun p => if decide (p = path) then inr data else inl OSError;
     realpath := fun p => inr (lexical_realpath (of_str "/srv/zappy") p) |}.

(** The text the example clock prints for a time: its whole seconds. *)
Definition seconds_text (t : float) : string :=
  match int_of_float t with inr s => str_of_int s | inl _ => "" end.

(** A process without [torch], whose clock reads 1730000000.25 s at first and
    a sixteenth of a second more at each further reading. *)
Definition sim_sys : Sys :=
  {| torch := None;
     time_at := fun k => (1730000000.25
                          + 0.0625 * PrimFloat.of_uint63 (Uint63.of_Z (Z.of_nat k)))%float;
     strftime := fun _ _ t => seconds_text t |}.

(** A [torch] without accelerator whose every step returns the loss 0.5. *)
Definition cpu_torch : Torch :=
  {| cuda_is_available := false;
     build := fun _ _ => inr tt;
     train_step := fun _ _ _ => inr 0.5%float |}.

(** The same process with [cpu_torch] installed. *)
Definition torch_sys : Sys :=
  {| torch := Some cpu_torch;
     time_at := time_at sim_sys;
     strftime := strftime sim_sys |}.

(** The configuration of the end-to-end scenario, with [n] steps. *)
Definition cfg (n : Z) : TrainingConfig :=
  {| dataset_index := of_str "/srv/zappy/data/index.json";
     checkpoint_dir := of_str "/srv/zappy/checkpoints";
     steps := n;
     batch_size := 4;
     learning_rate := 0.001;
     input_dim := 8;
     output_dim := 4;
     hidden_dim := 16;
     notes := JNull |}.

(** A context asking for the first accelerator. *)
Definition ctx (n : Z) : RunnerContext :=
  {| config := cfg n;
     devices := ["cuda:0"];
     weights := None;
     profile := "prod";
     log_file := of_str "/srv/zappy/logs/run.jsonl" |}.

(** A fresh world: no reading taken, nothing written. *)
Definition world0 : World :=
  {| ticks := 0; log := []; dirs := []; files := []; environ := ∅ |}.

(** The path of the configuration file in the examples. *)
Definition cfg_path : Path := of_str "/srv/zappy/conf/run.json".

(** A configuration file with the two required keys only, one path relative
    and one absolute. *)
Definition doc_minimal : gmap string json :=
  {[ "dataset_index" := JStr "data/index.json";
     "checkpoint_dir" := JStr "/var/zappy/checkpoints" ]}.

(** A configuration file whose numbers are out of the documented ranges. *)
Definition doc_out_of_range : gmap string json :=
  {[ "dataset_index" := JStr "data/index.json";
     "checkpoint_dir" := JStr "/var/zappy/checkpoints";
     "steps" := JInt (-5);
     "batch_size" := JInt 0;
     "learning_rate" := JFloat (-0.5);
     "input_dim" := JInt (-1) ]}.

(** A configuration file with both required keys and a step count that is
    [null]. *)
Definition doc_null_steps : gmap string json :=
  {[ "dataset_index" := JStr "data/index.json";
     "checkpoint_dir" := JStr "/var/zappy/checkpoints";
     "steps" := JNull ]}.

(** A configuration file without [checkpoint_dir]. *)
Definition doc_no_checkpoint_dir : gmap string json :=
  {[ "dataset_index" := JStr "data/index.json"; "steps" := JInt 20 ]}.

(** What [from_file] makes of [doc_minimal] stored at [cfg_path]. *)
Definition cfg_minimal : TrainingConfig :=
  {| dataset_index := of_str "/srv/zappy/conf/data/index.json";
     checkpoint_dir := of_str "/var/zappy/checkpoints";
     steps := 100;
     batch_size := 32;
     learning_rate := 0.001;
     input_dim := 128;
     output_dim := 64;
     hidden_dim := 128;
     notes := JNull |}.

(** What [from_file] makes of [doc_out_of_range] stored at [cfg_path]. *)
Definition cfg_out_of_range : TrainingConfig :=
  {| dataset_index := of_str "/srv/zappy/conf/data/index.json";
     checkpoint_dir := of_str "/var/zappy/checkpoints";
     steps := -5;
     batch_size := 0;
     learning_rate := (-0.5)%float;
     input_dim := -1;
     output_dim := 64;
     hidden_dim := 128;
     notes := JNull |}.

(** The command line of the examples. *)
Definition args (devices : string) : Namespace :=
  {| arg_config := cfg_path;
     arg_weights := None;
     arg_devices := devices;
     arg_profile := "prod";
     arg_log_file := of_str "/srv/zappy/logs/run.jsonl" |}.

(** A [torch] without accelerator whose step 15 raises. *)
Definition failing_torch : Torch :=
  {| cuda_is_available := false;
     build := fun _ _ => inr tt;
     train_step := fun _ _ i => if (i =? 15)%Z then inl RuntimeError else inr 0.25%float |}.

(** A [torch] with an accelerator. *)
Definition cuda_torch : Torch :=
  {| cuda_is_available := true;
     build := fun _ _ => inr tt;
     train_step := fun _ _ _ => inr 0.5%float |}.

(** A [torch] whose model cannot be built. *)
Definition unbuildable_torch : Torch :=
  {| cuda_is_available := false;
     build := fun _ _ => inl RuntimeError;
     train_step := fun _ _ _ => inr 0.5%float |}.

(** The example process with the library [t] installed. *)
Definition sys_with (t : Torch) : Sys :=
  {| torch := Some t;
     time_at := time_at sim_sys;
     strftime := strftime sim_sys |}.

(** A context asking for the devices [ds]. *)
Definition ctx_on (ds : list string) (n : Z) : RunnerContext :=
  {| config := cfg n;
     devices := ds;
     weights := None;
     profile := "prod";
     log_file := of_str "/srv/zappy/logs/run.jsonl" |}.

End Demo.

(** * Properties *)

Import Py Pathlib Config Trainer Main Obs.

(** ** The session monad and the loops *)

Lemma bind_eq {A B} (m : M A) (f : A -> M B) w :
  (m ≫= f) w = match m w with (inl e, w') => (inl e, w') | (inr x, w') => f x w' end.
Proof. reflexivity. Qed.

Lemma logged_nil w : logged w [] = w.
Proof. destruct w; unfold logged; simpl. by rewrite Nat.add_0_r, app_nil_r. Qed.

Lemma logged_app w a b : logged (logged w a) b = logged w (a ++ b).
Proof. unfold logged; simpl. by rewrite length_app, Nat.add_assoc, app_assoc. Qed.

Lemma with_environ_id w : with_environ w (environ w) = w.
Proof. by destruct w. Qed.

Lemma with_environ_same w env : environ w = env -> with_environ w env = w.
Proof. intros <-. apply with_environ_id. Qed.

Lemma logged_with_environ w env recs :
  logged (with_environ w env) recs = with_environ (logged w recs) env.
Proof. reflexivity. Qed.

Lemma checkpointed_with_environ sys ctx s w env :
  checkpointed sys ctx s (with_environ w env) = with_environ (checkpointed sys ctx s w) env.
Proof. reflexivity. Qed.

Lemma _log_spec sys ctx ev pl w :
  _log sys ctx ev pl w = (inr tt, logged w [record_at sys (ticks w) ev pl]).
Proof. unfold logged; simpl. by rewrite Nat.add_1_r. Qed.

Lemma _write_checkpoint_ok sys ctx w seconds :
  int_of_float (time_at sys (ticks w)) = inr seconds ->
  _write_checkpoint sys ctx w = (inr tt, checkpointed sys ctx seconds w).
Proof.
  intros H. unfold _write_checkpoint, mbind, M_bind, time_time, lift. simpl.
  rewrite H. reflexivity.
Qed.

Lemma _write_checkpoint_err sys ctx w e :
  int_of_float (time_at sys (ticks w)) = inl e ->
  exists w', _write_checkpoint sys ctx w = (inl e, w').
Proof.
  intros H. unfold _write_checkpoint, mbind, M_bind, time_time, lift. simpl.
  rewrite H. eauto.
Qed.

Lemma _write_checkpoint_inv sys ctx w u w' :
  _write_checkpoint sys ctx w = (inr u, w') ->
  exists seconds, int_of_float (time_at sys (ticks w)) = inr seconds
                  /\ w' = checkpointed sys ctx seconds w.
Proof.
  destruct (int_of_float (time_at sys (ticks w))) as [e|s] eqn:Hs.
  - apply (_write_checkpoint_err sys ctx) in Hs as [w'' ->]. done.
  - rewrite (_write_checkpoint_ok sys ctx w s Hs). intros H; inversion H; subst. eauto.
Qed.

Lemma simulate_loop sys ctx n : forall a w,
  for_each (Z.of_nat <$> seq a n) (_simulate_step sys ctx) (loss_after a) w
  = (inr (loss_after (a + n)),
     logged w (imap (fun k i => simulated_step sys (ticks w + k) i)
                    (filter (fun step => step mod 10 = 0) (Z.of_nat <$> seq a n)))).
Proof.
  induction n as [|n IH]; intros a w.
  - simpl. by rewrite Nat.add_0_r, logged_nil.
  - rewrite <- Nat.add_succ_comm. cbn [seq fmap list_fmap for_each].
    rewrite bind_eq. unfold _simulate_step at 1.
    change (loss_after a * 0.99)%float with (loss_after (S a)).
    rewrite filter_cons.
    destruct (Z.eqb_spec (Z.of_nat a mod 10) 0) as [Hm|Hm].
    + rewrite decide_True by done.
      cbv [mbind M_bind mret M_ret sleep]. rewrite _log_spec.
      rewrite (IH (S a)), logged_app. do 2 f_equal.
      cbn [imap app]. f_equal.
      * unfold simulated_step. by rewrite Nat.add_0_r, Nat2Z.id.
      * apply imap_ext. intros k i _. simpl. f_equal. lia.
    + rewrite decide_False by done.
      cbv [mbind M_bind mret M_ret sleep].
      by rewrite (IH (S a)).
Qed.

Lemma torch_loop_inv sys t ctx device n : forall a w u w',
  for_each (Z.of_nat <$> seq a n) (_run_torch_step sys t ctx device) tt w = (inr u, w') ->
  w' = logged w (imap (fun k i => torch_step sys (ticks w + k) i
                                    (torch_loss t device (config ctx) i))
                      (filter (fun step => step mod 10 = 0) (Z.of_nat <$> seq a n))).
Proof.
  induction n as [|n IH]; intros a w u w'.
  - cbv [seq fmap list_fmap for_each mret M_ret]. intros H; inversion H; subst. by rewrite logged_nil.
  - cbn [seq fmap list_fmap for_each]. rewrite bind_eq.
    unfold _run_torch_step at 1. rewrite filter_cons.
    cbv [mbind M_bind mret M_ret lift].
    destruct (train_step t device (config ctx) (Z.of_nat a)) as [e|x] eqn:Hx; [done|].
    destruct (Z.eqb_spec (Z.of_nat a mod 10) 0) as [Hm|Hm].
    + rewrite decide_True by done. rewrite _log_spec.
      intros H. apply IH in H. rewrite H, logged_app. f_equal.
      cbn [imap app]. f_equal.
      * unfold torch_loss. by rewrite Hx, Nat.add_0_r.
      * apply imap_ext. intros k i _. simpl. f_equal. lia.
    + rewrite decide_False by done. apply IH.
Qed.

Lemma torch_loop_ok sys t ctx device n : forall a w,
  Forall (fun i => exists x, train_step t device (config ctx) i = inr x) (Z.of_nat <$> seq a n) ->
  exists w', for_each (Z.of_nat <$> seq a n) (_run_torch_step sys t ctx device) tt w = (inr tt, w').
Proof.
  induction n as [|n IH]; intros a w.
  - cbv [seq fmap list_fmap for_each mret M_ret]. eauto.
  - cbn [seq fmap list_fmap for_each]. intros [Ha Hn]%Forall_cons.
    rewrite bind_eq. unfold _run_torch_step at 1.
    cbv [mbind M_bind mret M_ret lift].
    destruct Ha as [x ->].
    destruct (Z.of_nat a mod 10 =? 0)%Z; [rewrite _log_spec|]; by apply IH.
Qed.

(** ** Strings and paths *)

Lemma split_nonempty c s : split c s ≠ [].
Proof.
  destruct s as [|d s]; [done|]. cbn [split].
  destruct (Ascii.eqb d c); [done|]. by destruct (split c s).
Qed.

Lemma split_contains c s :
  contains c s = true -> exists a b rest, split c s = a :: b :: rest.
Proof.
  induction s as [|d s IH]; [done|]. cbn [contains split].
  destruct (Ascii.eqb d c); simpl.
  - intros _. destruct s as [|d' s']; cbn [split]; [by eauto|].
    destruct (Ascii.eqb d' c); [by eauto|]. destruct (split c s'); eauto.
  - intros (a & b & rest & ->)%IH. eauto.
Qed.

Lemma split_without c s : contains c s = false -> split c s = [s].
Proof.
  induction s as [|d s IH]; [done|]. cbn [contains split].
  destruct (Ascii.eqb d c); [done|]. cbn. intros ->%IH. done.
Qed.

Lemma split_join c s : String.concat (String c "") (split c s) = s.
Proof.
  induction s as [|d s IH]; [done|]. cbn [split].
  destruct (Ascii.eqb_spec d c) as [->|Hd].
  - pose proof (split_nonempty c s) as Hne.
    destruct (split c s) as [|tok toks]; [done|].
    rewrite <- IH. reflexivity.
  - pose proof (split_nonempty c s) as Hne.
    destruct (split c s) as [|tok toks]; [done|].
    rewrite <- IH. by destruct toks.
Qed.

Lemma split_tokens c s : Forall (fun token => contains c token = false) (split c s).
Proof.
  induction s as [|d s IH]; [by repeat constructor|]. cbn [split].
  destruct (Ascii.eqb d c) eqn:Hd; [by constructor|].
  destruct (split c s) as [|tok toks]; [repeat constructor; cbn; by rewrite Hd|].
  apply Forall_cons in IH as [Htok Htoks]. constructor; [|done].
  cbn. by rewrite Hd, Htok.
Qed.

Lemma split_only_separators c s :
  Forall (fun d => d = c) (String.list_ascii_of_string s) ->
  Forall (fun token => token = "") (split c s).
Proof.
  induction s as [|d s IH]; [by repeat constructor|].
  cbn [String.list_ascii_of_string split]. intros [-> Hs]%Forall_cons.
  rewrite Ascii.eqb_refl. constructor; [done|]. by apply IH.
Qed.

Lemma contains_app c a b : contains c (a +:+ b) = contains c a || contains c b.
Proof.
  induction a as [|d a IH]; [done|].
  simpl. by rewrite IH, orb_assoc.
Qed.

Lemma string_of_uint_digits d : contains "/" (NilEmpty.string_of_uint d) = false.
Proof. induction d; cbn; done. Qed.

Lemma str_of_int_digits z : contains "/" (str_of_int z) = false.
Proof.
  unfold str_of_int. destruct (Z.to_int z) as [d|d]; cbn [NilZero.string_of_int].
  - unfold NilZero.string_of_uint. destruct d; try done; apply string_of_uint_digits.
  - cbn [contains]. unfold NilZero.string_of_uint.
    destruct d; try done; apply string_of_uint_digits.
Qed.

Lemma splitroot_relative s : contains "/" s = false -> splitroot s = (NoRoot, s).
Proof.
  destruct s as [|c s]; [done|]. cbn [contains].
  intros [Hc _]%orb_false_iff.
  destruct c as [[] [] [] [] [] [] [] []]; try reflexivity. discriminate Hc.
Qed.

Lemma of_str_single s :
  contains "/" s = false -> s ≠ "" -> s ≠ "." ->
  of_str s = {| root := NoRoot; parts := [s] |}.
Proof.
  intros Hs H1 H2. unfold of_str.
  rewrite (splitroot_relative s Hs), (split_without _ s Hs).
  by rewrite filter_cons, decide_True.
Qed.

Lemma of_str_meta_name seconds :
  of_str (checkpoint_id seconds +:+ ".meta.json")
  = {| root := NoRoot; parts := [checkpoint_id seconds +:+ ".meta.json"] |}.
Proof.
  apply of_str_single.
  - unfold checkpoint_id. by rewrite !contains_app, str_of_int_digits.
  - unfold checkpoint_id. simpl. discriminate.
  - unfold checkpoint_id. simpl. discriminate.
Qed.

Lemma parent_join_name dir n :
  parent (join dir {| root := NoRoot; parts := [n] |}) = dir
  /\ name (join dir {| root := NoRoot; parts := [n] |}) = n.
Proof.
  destruct dir as [r ps]. unfold join, parent, name. cbn [is_absolute root parts].
  rewrite removelast_last, last_last. split; [|done].
  destruct ps; reflexivity.
Qed.

Lemma upto_self p : p ∈ upto p.
Proof.
  unfold upto. apply list_elem_of_fmap. exists (length (parts p)). split.
  - destruct p as [r ps]. cbn. by rewrite take_ge.
  - apply elem_of_seq. lia.
Qed.

Lemma join_parent_absolute p q :
  is_absolute p = true -> is_absolute (join (parent p) q) = true.
Proof.
  intros Hp. unfold join.
  destruct (is_absolute q) eqn:Hq; [done|].
  destruct p as [r [|x ps]]; by destruct r.
Qed.

Lemma lexical_realpath_absolute cwd cwd' p :
  is_absolute p = true -> lexical_realpath cwd p = lexical_realpath cwd' p.
Proof. unfold lexical_realpath. by intros ->. Qed.

Lemma fold_left_push (l acc : list string) :
  Forall (fun x => x ≠ "..") l ->
  fold_left (fun acc x => if decide (x = "..") then tail acc else x :: acc) l acc
  = rev l ++ acc.
Proof.
  revert acc. induction l as [|x l IH]; intros acc; [done|].
  intros [Hx Hl]%Forall_cons. cbn [fold_left rev].
  rewrite decide_False by done. rewrite IH by done. by rewrite <- app_assoc.
Qed.

(** On a file system without symbolic links, an absolute path without [".."]
    resolves to itself, whatever the working directory: a relative field of
    a configuration file given by an absolute path lands at the directory of
    the file followed by the components of the field. *)
Lemma lexical_realpath_plain cwd p :
  is_absolute p = true ->
  Forall (fun x => x ≠ "..") (parts p) ->
  lexical_realpath cwd p = {| root := Slash; parts := parts p |}.
Proof.
  intros Hp Hd. unfold lexical_realpath. rewrite Hp, fold_left_push by done.
  by rewrite app_nil_r, rev_involutive.
Qed.

Lemma lexical_resolve_relative cwd p v :
  is_absolute p = true ->
  is_absolute (of_str v) = false ->
  Forall (fun x => x ≠ "..") (parts (parent p) ++ parts (of_str v)) ->
  lexical_realpath cwd (join (parent p) (of_str v))
  = {| root := Slash; parts := parts (parent p) ++ parts (of_str v) |}.
Proof.
  intros Hp Hv Hd. rewrite lexical_realpath_plain.
  - unfold join. by rewrite Hv.
  - by apply join_parent_absolute.
  - unfold join. by rewrite Hv.
Qed.

(** ** What a completed [run] leaves *)

Lemma _select_torch_device_returns t ctx :
  exists device (f : gmap string string -> gmap string string),
    forall w, _select_torch_device t ctx w = (inr device, with_environ w (f (environ w))).
Proof.
  unfold _select_torch_device.
  destruct (devices ctx) as [|preferred rest].
  { exists "cpu", id. intros w. by rewrite with_environ_id. }
  destruct (startswith preferred "cuda" && cuda_is_available t).
  2: { exists "cpu", id. intros w. by rewrite with_environ_id. }
  destruct (contains ":" preferred) eqn:Hc.
  - apply split_contains in Hc as (a & b & rest' & ->).
    by exists "cuda:0", (insert "CUDA_VISIBLE_DEVICES" b).
  - by exists "cuda:0", (insert "CUDA_VISIBLE_DEVICES" "0").
Qed.

Lemma _simulate_inv sys ctx w u w' :
  _simulate sys ctx w = (inr u, w') ->
  exists seconds,
    let w1 := logged w (imap (fun k i => simulated_step sys (ticks w + k) i)
                             (logged_steps (steps (config ctx)))) in
    int_of_float (time_at sys (ticks w1)) = inr seconds
    /\ w' = checkpointed sys ctx seconds w1.
Proof.
  unfold _simulate. rewrite bind_eq. unfold range.
  change 1%float with (loss_after 0). rewrite simulate_loop.
  apply _write_checkpoint_inv.
Qed.

Lemma _run_torch_inv sys t ctx w u w' :
  _run_torch sys t ctx w = (inr u, w') ->
  exists device f seconds,
    (forall w0, _select_torch_device t ctx w0 = (inr device, with_environ w0 (f (environ w0)))) /\
    let w1 := logged w (imap (fun k i => torch_step sys (ticks w + k) i
                                           (torch_loss t device (config ctx) i))
                             (logged_steps (steps (config ctx)))) in
    int_of_float (time_at sys (ticks w1)) = inr seconds
    /\ w' = with_environ (checkpointed sys ctx seconds w1) (f (environ w)).
Proof.
  unfold _run_torch. rewrite bind_eq.
  destruct (_select_torch_device_returns t ctx) as (device & f & Hsel).
  rewrite Hsel. rewrite bind_eq. unfold lift at 1.
  destruct (build t device (config ctx)) as [e|[]]; [done|].
  rewrite bind_eq.
  destruct (for_each _ _ _ _) as [[e|[]] w1] eqn:Hloop; [done|].
  apply torch_loop_inv in Hloop. subst w1.
  intros H. apply _write_checkpoint_inv in H as (seconds & Hs & ->).
  exists device, f, seconds. split; [done|]. split; [done|].
  by rewrite logged_with_environ, checkpointed_with_environ.
Qed.

Lemma run_inv sys ctx w w' :
  run sys ctx w = (inr tt, w') ->
  exists device f seconds,
    int_of_float (time_at sys (write_tick ctx w)) = inr seconds
    /\ w' = with_environ (completed sys ctx device seconds w) (f (environ w))
    /\ match torch sys with
       | None => f = id
       | Some t => forall w0, _select_torch_device t ctx w0
                              = (inr device, with_environ w0 (f (environ w0)))
       end.
Proof.
  unfold run. rewrite bind_eq, _log_spec. rewrite bind_eq.
  unfold completed, session_steps, write_tick.
  destruct (torch sys) as [t|] eqn:Ht; cbn beta iota.
  - destruct (_run_torch sys t ctx _) as [[e|[]] w1] eqn:Hrun; [done|].
    apply _run_torch_inv in Hrun as (device & f & seconds & Hsel & Hs & ->).
    rewrite _log_spec. intros H; inversion H; subst; clear H.
    exists device, f, seconds.
    cbn [logged ticks length] in Hs. rewrite length_imap in Hs.
    split; [rewrite <- Hs; do 2 f_equal; lia|].
    split; [|done].
    rewrite logged_with_environ. f_equal.
    rewrite logged_app. cbn [app]. unfold session_start.
    rewrite (imap_ext _ (fun k i => torch_step sys (S (ticks w) + k) i
                                      (torch_loss t device (config ctx) i)))
      by (intros; f_equal; lia).
    do 3 f_equal. cbn [logged ticks length]. rewrite !length_imap. lia.
  - destruct (_simulate sys ctx _) as [[e|[]] w1] eqn:Hrun; [done|].
    apply _simulate_inv in Hrun as (seconds & Hs & ->).
    rewrite _log_spec. intros H; inversion H; subst; clear H.
    exists "", id, seconds.
    cbn [logged ticks length] in Hs. rewrite length_imap in Hs.
    split; [rewrite <- Hs; do 2 f_equal; lia|].
    split; [|done].
    rewrite with_environ_same by reflexivity.
    rewrite logged_app. cbn [app]. unfold session_start.
    rewrite (imap_ext _ (fun k i => simulated_step sys (S (ticks w) + k) i))
      by (intros; f_equal; lia).
    do 3 f_equal. cbn [logged ticks length]. rewrite !length_imap. lia.
Qed.


Lemma run_torch_completes sys t ctx w seconds :
  torch sys = Some t ->
  (forall device, build t device (config ctx) = inr tt) ->
  (forall device i, exists x, train_step t device (config ctx) i = inr x) ->
  int_of_float (time_at sys (write_tick ctx w)) = inr seconds ->
  exists w', run sys ctx w = (inr tt, w').
Proof.
  intros Ht Hb Hstep Hs. unfold run. rewrite bind_eq, _log_spec, bind_eq, Ht.
  unfold _run_torch. rewrite bind_eq.
  destruct (_select_torch_device_returns t ctx) as (device & f & ->).
  rewrite bind_eq. unfold lift at 1. rewrite Hb, bind_eq. unfold range.
  destruct (torch_loop_ok sys t ctx device (Z.to_nat (steps (config ctx))) 0
              (with_environ (logged w [record_at sys (ticks w) "session_start"
                 {[ "profile" := JStr (profile ctx);
                    "devices" := JArr (JStr <$> devices ctx) ]}]) (f (environ w))))
    as [w1 Hloop].
  { apply Forall_forall. intros i _. apply Hstep. }
  cbn [logged environ] in *. rewrite Hloop.
  pose proof (torch_loop_inv _ _ _ _ _ _ _ _ _ Hloop) as ->.
  erewrite _write_checkpoint_ok.
  - rewrite _log_spec. eauto.
  - rewrite <- Hs. unfold write_tick. cbn [with_environ logged ticks app length].
    rewrite length_imap. do 2 f_equal. unfold logged_steps, range. lia.
Qed.

Lemma length_session_steps sys ctx device tick :
  length (session_steps sys ctx device tick) = length (logged_steps (steps (config ctx))).
Proof. unfold session_steps. apply length_imap. Qed.

Lemma files_completed sys ctx device seconds w env :
  files (with_environ (completed sys ctx device seconds w) env)
  = (meta_path ctx seconds,
     JObj (checkpoint_meta sys ctx (checkpoint_id seconds)
             (time_at sys (S (write_tick ctx w)))))
      :: filter (fun e => e.1 ≠ meta_path ctx seconds) (files w).
Proof.
  unfold completed, write_tick. cbn [with_environ logged checkpointed files ticks length].
  rewrite length_session_steps. do 5 f_equal. lia.
Qed.

Lemma dirs_completed sys ctx device seconds w env :
  dirs (with_environ (completed sys ctx device seconds w) env)
  = list_union (upto (checkpoint_dir (config ctx))) (dirs w).
Proof. reflexivity. Qed.

Lemma ticks_completed sys ctx device seconds w env :
  ticks (with_environ (completed sys ctx device seconds w) env) = (4 + write_tick ctx w)%nat.
Proof.
  unfold completed, write_tick. cbn [with_environ logged checkpointed ticks length].
  rewrite length_session_steps. lia.
Qed.

(** ** The records of a session *)

Lemma lookup_step3 (a b c : json) :
  ({[ "step" := a; "loss" := b; "simulated" := c ]} : gmap string json) !! "step" = Some a
  /\ ({[ "step" := a; "loss" := b; "simulated" := c ]} : gmap string json) !! "loss" = Some b.
Proof. split; reflexivity. Qed.

Lemma lookup_step2 (a b : json) :
  ({[ "step" := a; "loss" := b ]} : gmap string json) !! "step" = Some a
  /\ ({[ "step" := a; "loss" := b ]} : gmap string json) !! "loss" = Some b.
Proof. split; reflexivity. Qed.

Lemma step_info_simulated sys tick i :
  step_info (simulated_step sys tick i) = Some (i, loss_after (S (Z.to_nat i))).
Proof.
  unfold step_info, simulated_step, record_at. cbn [event payload String.eqb Ascii.eqb Bool.eqb].
  destruct (lookup_step3 (JInt i) (JFloat (loss_after (S (Z.to_nat i)))) (JBool true)) as [-> ->].
  reflexivity.
Qed.

Lemma step_info_torch sys tick i x :
  step_info (torch_step sys tick i x) = Some (i, x).
Proof.
  unfold step_info, torch_step, record_at. cbn [event payload String.eqb Ascii.eqb Bool.eqb].
  destruct (lookup_step2 (JInt i) (JFloat x)) as [-> ->].
  reflexivity.
Qed.

Lemma range_sorted a n : StronglySorted Z.lt (Z.of_nat <$> seq a n).
Proof.
  revert a. induction n as [|n IH]; intros a; cbn [seq fmap list_fmap].
  - constructor.
  - apply StronglySorted_cons. split; [|apply IH].
    apply Forall_forall. intros x (k & -> & Hk%elem_of_seq)%list_elem_of_fmap. lia.
Qed.

Lemma filter_sorted {A} (R : A -> A -> Prop) (P : A -> Prop) `{!forall x, Decision (P x)} l :
  StronglySorted R l -> StronglySorted R (filter P l).
Proof.
  induction 1 as [|x l Hs IH Hx]; [constructor|].
  rewrite filter_cons. case_decide; [|done].
  apply StronglySorted_cons. split; [|done].
  apply Forall_forall. intros y [_ Hy]%list_elem_of_filter.
  by eapply Forall_forall in Hx.
Qed.

Lemma logged_steps_sorted n : StronglySorted Z.lt (logged_steps n).
Proof. apply filter_sorted, range_sorted. Qed.

Lemma elem_of_logged_steps n i :
  i ∈ logged_steps n <-> 0 <= i < n /\ i mod 10 = 0.
Proof.
  unfold logged_steps, range. rewrite list_elem_of_filter, list_elem_of_fmap.
  split.
  - intros [Hm (k & -> & Hk%elem_of_seq)]. split; [lia|done].
  - intros [Hi Hm]. split; [done|]. exists (Z.to_nat i). rewrite elem_of_seq. lia.
Qed.


Lemma step_events_app l1 l2 : step_events (l1 ++ l2) = step_events l1 ++ step_events l2.
Proof. apply omap_app. Qed.

Lemma step_events_simulated sys l : forall tick,
  step_events (imap (fun k i => simulated_step sys (tick + k) i) l)
  = (fun i => (i, loss_after (S (Z.to_nat i)))) <$> l.
Proof.
  induction l as [|i l IH]; intros tick; [done|].
  cbn [imap fmap list_fmap]. unfold step_events in *. cbn [omap list_omap].
  rewrite step_info_simulated. f_equal.
  rewrite <- (IH (S tick)). f_equal. apply imap_ext. intros k j _. simpl. f_equal. lia.
Qed.

Lemma step_events_torch sys (loss : Z -> float) l : forall tick,
  step_events (imap (fun k i => torch_step sys (tick + k) i (loss i)) l)
  = (fun i => (i, loss i)) <$> l.
Proof.
  induction l as [|i l IH]; intros tick; [done|].
  cbn [imap fmap list_fmap]. unfold step_events in *. cbn [omap list_omap].
  rewrite step_info_torch. f_equal.
  rewrite <- (IH (S tick)). f_equal. apply imap_ext. intros k j _. simpl. f_equal. lia.
Qed.

Lemma step_events_session sys ctx device tick :
  (step_events (session_steps sys ctx device tick)).*1 = logged_steps (steps (config ctx)).
Proof.
  unfold session_steps. destruct (torch sys) as [t|].
  - rewrite step_events_torch, <- list_fmap_compose. apply list_fmap_id.
  - rewrite step_events_simulated, <- list_fmap_compose. apply list_fmap_id.
Qed.

Lemma events_session sys ctx device tick :
  event <$> session_steps sys ctx device tick
  = replicate (length (logged_steps (steps (config ctx)))) "step".
Proof.
  unfold session_steps. rewrite fmap_imap.
  generalize (logged_steps (steps (config ctx))) as l. intros l. revert tick.
  induction l as [|i l IH]; intros tick; [done|].
  cbn [imap length replicate]. f_equal.
  - by destruct (torch sys).
  - rewrite <- (IH (S tick)). apply imap_ext. intros k j _. simpl.
    destruct (torch sys); reflexivity.
Qed.

Lemma emitted_completed sys ctx device seconds w env :
  emitted w (with_environ (completed sys ctx device seconds w) env)
  = session_start sys ctx (ticks w)
      :: session_steps sys ctx device (S (ticks w))
      ++ [record_at sys (S (S (ticks w + S (length (logged_steps (steps (config ctx)))))))
            "checkpoint"
            {[ "meta" := JStr (to_str (meta_path ctx seconds)) ]};
          record_at sys (S (S (S (ticks w + S (length (logged_steps (steps (config ctx))))))))
            "session_complete" ∅].
Proof.
  unfold emitted, completed. cbn [with_environ logged checkpointed log ticks length].
  rewrite <- !app_assoc, drop_app_length. cbn [app].
  by rewrite !length_session_steps.
Qed.

Lemma step_events_emitted sys ctx device seconds w env :
  step_events (emitted w (with_environ (completed sys ctx device seconds w) env))
  = step_events (session_steps sys ctx device (S (ticks w))).
Proof.
  rewrite emitted_completed.
  change (?x :: ?l ++ ?k) with ([x] ++ l ++ k).
  rewrite !step_events_app. cbn. by rewrite app_nil_r.
Qed.

Lemma events_emitted sys ctx device seconds w env :
  event <$> emitted w (with_environ (completed sys ctx device seconds w) env)
  = ["session_start"] ++ replicate (length (logged_steps (steps (config ctx)))) "step"
    ++ ["checkpoint"; "session_complete"].
Proof.
  rewrite emitted_completed. cbn [fmap list_fmap app]. f_equal.
  change (list_fmap _ _ ?f ?l) with (f <$> l).
  by rewrite fmap_app, events_session.
Qed.

Lemma filter_step_names k :
  filter (fun e : string => e = "step")
         (["session_start"] ++ replicate k "step" ++ ["checkpoint"; "session_complete"])
  = replicate k "step".
Proof.
  cbn [app]. rewrite filter_cons, decide_False by done.
  induction k as [|k IH]; [done|].
  cbn [replicate app]. by rewrite filter_cons, decide_True, IH.
Qed.

(** Claim C2.  Whenever [run] completes, on the torch path as on the
    simulated one, the records it appended are, by name, one
    [session_start], then [k] records [step], then one [checkpoint], then one
    [session_complete], which is last; each of the [k] step records carries a
    step index, and these indices are strictly increasing. *)
Theorem run_event_order sys ctx w w' :
  run sys ctx w = (inr tt, w') ->
  exists k,
    event <$> emitted w w'
      = ["session_start"] ++ replicate k "step" ++ ["checkpoint"; "session_complete"]
    /\ length (step_events (emitted w w')) = k
    /\ StronglySorted Z.lt (step_events (emitted w w')).*1.
Proof.
  intros (device & f & seconds & _ & -> & _)%run_inv.
  exists (length (logged_steps (steps (config ctx)))).
  rewrite events_emitted, step_events_emitted. split; [done|].
  pose proof (step_events_session sys ctx device (S (ticks w))) as Hs.
  split.
  - by rewrite <- Hs, length_fmap.
  - rewrite Hs. apply logged_steps_sorted.
Qed.

Lemma run_event_order_witness :
  exists k,
    event <$> emitted Demo.world0 (run Demo.torch_sys (Demo.ctx 25) Demo.world0).2
      = ["session_start"] ++ replicate k "step" ++ ["checkpoint"; "session_complete"]
    /\ length (step_events (emitted Demo.world0 (run Demo.torch_sys (Demo.ctx 25) Demo.world0).2)) = k
    /\ StronglySorted Z.lt
         (step_events (emitted Demo.world0 (run Demo.torch_sys (Demo.ctx 25) Demo.world0).2)).*1.
Proof.
  apply (run_event_order Demo.torch_sys (Demo.ctx 25)).
  vm_compute. reflexivity.
Defined.

(** Claim C7.  Without [torch], a completed [run] over [n] steps logs a
    [step] record for a step index [i] exactly when [0 <= i < n] and [i] is a
    multiple of 10, each such index once, and every record named [step] is one
    of these; with [n = 0] the records are [session_start], [checkpoint],
    [session_complete] and no [step]. *)
Theorem simulated_step_indices sys ctx w w' :
  torch sys = None ->
  run sys ctx w = (inr tt, w') ->
  (forall i, i ∈ (step_events (emitted w w')).*1
             <-> 0 <= i < steps (config ctx) /\ i mod 10 = 0)
  /\ NoDup (step_events (emitted w w')).*1
  /\ length (filter (fun e => e = "step") (event <$> emitted w w'))
     = length (step_events (emitted w w'))
  /\ (steps (config ctx) = 0 ->
      event <$> emitted w w' = ["session_start"; "checkpoint"; "session_complete"]).
Proof.
  intros Ht (device & f & seconds & _ & -> & _)%run_inv.
  rewrite step_events_emitted, events_emitted, filter_step_names.
  pose proof (step_events_session sys ctx device (S (ticks w))) as Hs.
  rewrite Hs. split; [|split; [|split]].
  - intros i. apply elem_of_logged_steps.
  - apply NoDup_filter, NoDup_fmap_2, NoDup_seq. apply _.
  - by rewrite <- Hs, length_fmap, length_replicate.
  - intros ->. reflexivity.
Qed.

Lemma simulated_step_indices_witness :
  ((forall i, i ∈ (step_events (emitted Demo.world0
                      (run Demo.sim_sys (Demo.ctx 25) Demo.world0).2)).*1
              <-> 0 <= i < 25 /\ i mod 10 = 0)
   /\ NoDup (step_events (emitted Demo.world0
               (run Demo.sim_sys (Demo.ctx 25) Demo.world0).2)).*1
   /\ length (filter (fun e => e = "step")
                (event <$> emitted Demo.world0 (run Demo.sim_sys (Demo.ctx 25) Demo.world0).2))
      = length (step_events (emitted Demo.world0
                  (run Demo.sim_sys (Demo.ctx 25) Demo.world0).2))
   /\ (25 = 0 ->
       event <$> emitted Demo.world0 (run Demo.sim_sys (Demo.ctx 25) Demo.world0).2
       = ["session_start"; "checkpoint"; "session_complete"]))
  /\ event <$> emitted Demo.world0 (run Demo.sim_sys (Demo.ctx 0) Demo.world0).2
     = ["session_start"; "checkpoint"; "session_complete"].
Proof.
  split.
  - apply (simulated_step_indices Demo.sim_sys (Demo.ctx 25)).
    + reflexivity.
    + vm_compute. reflexivity.
  - apply (simulated_step_indices Demo.sim_sys (Demo.ctx 0)).
    + reflexivity.
    + vm_compute. reflexivity.
    + reflexivity.
Defined.

(** Claim C1 fails as stated: in a simulated run of 20 steps the [step]
    record of index 0 carries the loss 0.99, not 1.0, and the one of index 10
    carries the loss after eleven multiplications, not after ten. *)
Lemma step_0_loss_is_not_1 :
  step_events (emitted Demo.world0 (run Demo.sim_sys (Demo.ctx 20) Demo.world0).2)
    = [(0, 0.99%float); (10, loss_after 11)]
  /\ (0.99 =? 1)%float = false
  /\ (loss_after 11 =? loss_after 10)%float = false.
Proof. vm_compute. done. Qed.

(** Claim C1, amended.  Without [torch], the [step] records of a completed
    [run] are, in order, those of the step indices [i] that are logged, each
    with the loss that results from multiplying 1.0 by 0.99 [i + 1] times
    (that is, 0.99^(i+1) as [_simulate] computes it in binary64): the loss is
    multiplied before it is logged. *)
Theorem simulated_loss_at_step sys ctx w w' :
  torch sys = None ->
  run sys ctx w = (inr tt, w') ->
  step_events (emitted w w')
  = (fun i => (i, loss_after (S (Z.to_nat i)))) <$> logged_steps (steps (config ctx)).
Proof.
  intros Ht (device & f & seconds & _ & -> & _)%run_inv.
  rewrite step_events_emitted. unfold session_steps. rewrite Ht.
  apply step_events_simulated.
Qed.

Lemma simulated_loss_at_step_witness :
  step_events (emitted Demo.world0 (run Demo.sim_sys (Demo.ctx 20) Demo.world0).2)
  = (fun i => (i, loss_after (S (Z.to_nat i)))) <$> logged_steps 20.
Proof.
  apply (simulated_loss_at_step Demo.sim_sys (Demo.ctx 20)).
  - reflexivity.
  - vm_compute. reflexivity.
Defined.

(** ** Device selection *)

(** Claim C6.  When [torch.cuda.is_available()] is false, whatever the
    device list, one that starts with an accelerator included,
    [_select_torch_device] raises nothing, changes nothing and returns
    ["cpu"], and [_run_torch] builds the model and runs every step on
    ["cpu"]. *)
Theorem no_accelerator_falls_back_to_cpu sys t ctx w :
  cuda_is_available t = false ->
  _select_torch_device t ctx w = (inr "cpu", w)
  /\ _run_torch sys t ctx w
     = (lift (build t "cpu" (config ctx));;
        for_each (range (steps (config ctx))) (_run_torch_step sys t ctx "cpu") tt;;
        _write_checkpoint sys ctx) w.
Proof.
  intros Hc.
  assert (_select_torch_device t ctx w = (inr "cpu", w)) as Hsel.
  { unfold _select_torch_device. destruct (devices ctx) as [|preferred rest]; [done|].
    by rewrite Hc, andb_false_r. }
  split; [done|]. unfold _run_torch. by rewrite bind_eq, Hsel.
Qed.

Lemma no_accelerator_falls_back_to_cpu_witness :
  startswith "cuda:0" "cuda" = true
  /\ _select_torch_device Demo.cpu_torch (Demo.ctx 20) Demo.world0 = (inr "cpu", Demo.world0)
  /\ _run_torch Demo.torch_sys Demo.cpu_torch (Demo.ctx 20) Demo.world0
     = (lift (build Demo.cpu_torch "cpu" (config (Demo.ctx 20)));;
        for_each (range (steps (config (Demo.ctx 20))))
          (_run_torch_step Demo.torch_sys Demo.cpu_torch (Demo.ctx 20) "cpu") tt;;
        _write_checkpoint Demo.torch_sys (Demo.ctx 20)) Demo.world0.
Proof.
  split; [reflexivity|].
  apply (no_accelerator_falls_back_to_cpu Demo.torch_sys Demo.cpu_torch (Demo.ctx 20) Demo.world0).
  reflexivity.
Defined.

(** ** The checkpoint *)

Lemma lookup_checkpoint_meta sys ctx id created :
  checkpoint_meta sys ctx id created !! "id" = Some (JStr id)
  /\ checkpoint_meta sys ctx id created !! "training_step" = Some (JInt (steps (config ctx))).
Proof. split; reflexivity. Qed.

Lemma filter_other_idem (p : Path) (fs : list (Path * json)) :
  filter (fun e => e.1 ≠ p) (filter (fun e => e.1 ≠ p) fs) = filter (fun e => e.1 ≠ p) fs.
Proof. rewrite list_filter_filter. apply list_filter_iff. tauto. Qed.

(** Claim C3.  Whenever [run] completes, on either path and for any step
    count, zero included, the one file it writes is the checkpoint metadata,
    and its [training_step] is the step count of the configuration. *)
Theorem checkpoint_training_step sys ctx w w' :
  run sys ctx w = (inr tt, w') ->
  exists p meta,
    files w' = (p, JObj meta) :: filter (fun e => e.1 ≠ p) (files w)
    /\ meta !! "training_step" = Some (JInt (steps (config ctx))).
Proof.
  intros (device & f & seconds & _ & -> & _)%run_inv.
  rewrite files_completed.
  eexists _, _. split; [reflexivity|]. apply lookup_checkpoint_meta.
Qed.

Lemma checkpoint_training_step_witness :
  (exists p meta,
     files (run Demo.sim_sys (Demo.ctx 0) Demo.world0).2
       = (p, JObj meta) :: filter (fun e => e.1 ≠ p) (files Demo.world0)
     /\ meta !! "training_step" = Some (JInt 0))
  /\ (exists p meta,
     files (run Demo.torch_sys (Demo.ctx 20) Demo.world0).2
       = (p, JObj meta) :: filter (fun e => e.1 ≠ p) (files Demo.world0)
     /\ meta !! "training_step" = Some (JInt 20)).
Proof.
  split.
  - apply (checkpoint_training_step Demo.sim_sys (Demo.ctx 0)). vm_compute. reflexivity.
  - apply (checkpoint_training_step Demo.torch_sys (Demo.ctx 20)). vm_compute. reflexivity.
Defined.

(** Claim C9.  Whenever [run] completes, the time [_write_checkpoint] read
    has whole seconds [seconds]; the identifier is ["checkpoint-"] followed by
    the decimal numeral of [seconds]; the metadata, carrying that identifier,
    is the file named [<id>.meta.json] whose parent is the checkpoint
    directory of the configuration, and that directory exists afterwards.  A
    second run of the same context that writes within the same second gets
    the same identifier and the same path: it replaces the file and adds
    none. *)
Theorem checkpoint_identifier_and_file sys ctx w w' :
  run sys ctx w = (inr tt, w') ->
  exists seconds meta,
    int_of_float (time_at sys (write_tick ctx w)) = inr seconds
    /\ (ticks w <= write_tick ctx w < ticks w')%nat
    /\ checkpoint_id seconds = "checkpoint-" +:+ str_of_int seconds
    /\ parent (meta_path ctx seconds) = checkpoint_dir (config ctx)
    /\ name (meta_path ctx seconds) = checkpoint_id seconds +:+ ".meta.json"
    /\ checkpoint_dir (config ctx) ∈ dirs w'
    /\ files w' = (meta_path ctx seconds, JObj meta)
                    :: filter (fun e => e.1 ≠ meta_path ctx seconds) (files w)
    /\ meta !! "id" = Some (JStr (checkpoint_id seconds))
    /\ (forall w'',
          run sys ctx w' = (inr tt, w'') ->
          int_of_float (time_at sys (write_tick ctx w')) = inr seconds ->
          (files w'').*1 = (files w').*1
          /\ exists meta', file_at (meta_path ctx seconds) (files w'') = Some (JObj meta')
                           /\ meta' !! "id" = Some (JStr (checkpoint_id seconds))).
Proof.
  intros (device & f & seconds & Hs & -> & _)%run_inv.
  eexists seconds, _. split; [done|].
  rewrite ticks_completed, dirs_completed, files_completed.
  unfold meta_path at 1 2. rewrite of_str_meta_name.
  destruct (parent_join_name (checkpoint_dir (config ctx))
              (checkpoint_id seconds +:+ ".meta.json")) as [-> ->].
  split; [unfold write_tick; lia|]. do 3 (split; [done|]).
  split; [apply list_elem_of_union; left; apply upto_self|].
  split; [reflexivity|].
  split; [apply lookup_checkpoint_meta|].
  intros w'' (device' & f' & seconds' & Hs' & -> & _)%run_inv Hs2.
  rewrite Hs2 in Hs'. injection Hs' as <-.
  rewrite !files_completed. cbn [fmap list_fmap file_at fst].
  rewrite decide_True by done. split.
  - f_equal. change (list_fmap _ _ ?f ?l) with (f <$> l).
    by rewrite filter_cons, decide_False, filter_other_idem by (cbn; tauto).
  - eexists. split; [done|]. apply lookup_checkpoint_meta.
Qed.

Lemma checkpoint_identifier_and_file_witness :
  let w1 := (run Demo.sim_sys (Demo.ctx 20) Demo.world0).2 in
  let w2 := (run Demo.sim_sys (Demo.ctx 20) w1).2 in
  (exists meta,
     int_of_float (time_at Demo.sim_sys (write_tick (Demo.ctx 20) Demo.world0))
       = inr 1730000000
     /\ checkpoint_id 1730000000 = "checkpoint-1730000000"
     /\ parent (meta_path (Demo.ctx 20) 1730000000) = of_str "/srv/zappy/checkpoints"
     /\ name (meta_path (Demo.ctx 20) 1730000000) = "checkpoint-1730000000.meta.json"
     /\ of_str "/srv/zappy/checkpoints" ∈ dirs w1
     /\ files w1 = [(meta_path (Demo.ctx 20) 1730000000, JObj meta)]
     /\ meta !! "id" = Some (JStr "checkpoint-1730000000"))
  /\ time_at Demo.sim_sys (write_tick (Demo.ctx 20) Demo.world0) = 1730000000.4375%float
  /\ time_at Demo.sim_sys (write_tick (Demo.ctx 20) w1) = 1730000000.875%float
  /\ (files w2).*1 = (files w1).*1.
Proof.
  intros w1 w2.
  assert (run Demo.sim_sys (Demo.ctx 20) Demo.world0 = (inr tt, w1)) as H1
    by (vm_compute; reflexivity).
  assert (run Demo.sim_sys (Demo.ctx 20) w1 = (inr tt, w2)) as H2
    by (vm_compute; reflexivity).
  destruct (checkpoint_identifier_and_file Demo.sim_sys (Demo.ctx 20) Demo.world0 w1 H1)
    as (seconds & meta & Hs & _ & Hid & Hparent & Hname & Hdir & Hfiles & Hmeta & Hagain).
  assert (seconds = 1730000000) as -> by (vm_compute in Hs; congruence).
  split; [|split; [vm_compute; reflexivity|split; [vm_compute; reflexivity|]]].
  - exists meta. split; [done|]. split; [vm_compute; reflexivity|].
    split; [exact Hparent|]. split; [exact Hname|]. split; [exact Hdir|].
    split; [exact Hfiles|exact Hmeta].
  - apply (Hagain w2 H2). vm_compute. reflexivity.
Defined.

(** ** Loading a configuration *)

Lemma from_file_obj h p m :
  read_json h p = inr (JObj m) ->
  from_file h p =
    (v ← (match m !! "dataset_index" with Some v => inr v | None => inl (KeyError "dataset_index") end : result json);
     dataset_index ← _resolve h p v;
     v ← (match m !! "checkpoint_dir" with Some v => inr v | None => inl (KeyError "checkpoint_dir") end : result json);
     checkpoint_dir ← _resolve h p v;
     steps ← int_ h (field m "steps" (JInt 100));
     batch_size ← int_ h (field m "batch_size" (JInt 32));
     learning_rate ← float_ h (field m "learning_rate" (JFloat 0.001));
     input_dim ← int_ h (field m "input_dim" (JInt 128));
     output_dim ← int_ h (field m "output_dim" (JInt 64));
     hidden_dim ← int_ h (field m "hidden_dim" (JInt 128));
     mret {| dataset_index := dataset_index;
             checkpoint_dir := checkpoint_dir;
             steps := steps;
             batch_size := batch_size;
             learning_rate := learning_rate;
             input_dim := input_dim;
             output_dim := output_dim;
             hidden_dim := hidden_dim;
             notes := field m "notes" JNull |}).
Proof.
  intros Hm. unfold from_file, _load_json. rewrite Hm. reflexivity.
Qed.

Lemma from_file_reads_object h p cfg :
  from_file h p = inr cfg -> exists m, read_json h p = inr (JObj m).
Proof.
  unfold from_file, _load_json.
  destruct (read_json h p) as [e|[]]; try done. eauto.
Qed.

Lemma from_file_inv h p m cfg :
  read_json h p = inr (JObj m) ->
  from_file h p = inr cfg ->
  (exists d, m !! "dataset_index" = Some d /\ _resolve h p d = inr (dataset_index cfg))
  /\ (exists c, m !! "checkpoint_dir" = Some c /\ _resolve h p c = inr (checkpoint_dir cfg))
  /\ int_ h (field m "steps" (JInt 100)) = inr (steps cfg)
  /\ int_ h (field m "batch_size" (JInt 32)) = inr (batch_size cfg)
  /\ float_ h (field m "learning_rate" (JFloat 0.001)) = inr (learning_rate cfg)
  /\ int_ h (field m "input_dim" (JInt 128)) = inr (input_dim cfg)
  /\ int_ h (field m "output_dim" (JInt 64)) = inr (output_dim cfg)
  /\ int_ h (field m "hidden_dim" (JInt 128)) = inr (hidden_dim cfg)
  /\ notes cfg = field m "notes" JNull.
Proof.
  intros Hm. rewrite (from_file_obj h p m Hm).
  destruct (m !! "dataset_index") as [d|]; [|done]. cbn [mbind result_bind].
  destruct (_resolve h p d) as [|ds] eqn:Hd; [done|].
  destruct (m !! "checkpoint_dir") as [c|]; [|done]. cbn [mbind result_bind].
  destruct (_resolve h p c) as [|cd] eqn:Hc; [done|].
  destruct (int_ h (field m "steps" _)) as [|s]; [done|].
  destruct (int_ h (field m "batch_size" _)) as [|b]; [done|].
  destruct (float_ h (field m "learning_rate" _)) as [|lr]; [done|].
  destruct (int_ h (field m "input_dim" _)) as [|i]; [done|].
  destruct (int_ h (field m "output_dim" _)) as [|o]; [done|].
  destruct (int_ h (field m "hidden_dim" _)) as [|hd]; [done|].
  intros [= <-]. cbn. split; [by exists d|]. split; [by exists c|]. done.
Qed.

Lemma _resolve_str h p v :
  _resolve h p (JStr v)
  = if is_absolute (of_str v) then inr (of_str v)
    else realpath h (join (parent p) (of_str v)).
Proof. reflexivity. Qed.

(** Claim C4 fails as stated: a file with [steps = -5], [batch_size = 0],
    [learning_rate = -0.5] and [input_dim = -1] is loaded into a
    [TrainingConfig] that carries these values. *)
Lemma from_file_accepts_out_of_range_values :
  exists cfg,
    from_file (Demo.host Demo.cfg_path (JObj Demo.doc_out_of_range)) Demo.cfg_path = inr cfg
    /\ steps cfg = -5
    /\ batch_size cfg = 0
    /\ (learning_rate cfg <? 0)%float = true
    /\ input_dim cfg = -1.
Proof. eexists. split; [vm_compute; reflexivity|]. by vm_compute. Qed.

(** Claim C4, amended.  [from_file] checks no range: in every
    [TrainingConfig] it produces, each numeric field is the [int] (for the
    learning rate, [float]) conversion of the value the file gives for its
    key, or of the default [100], [32], [0.001], [128], [64], [128] when the
    key is absent.  So the bounds hold of a produced configuration exactly
    when they hold of the converted values of the file. *)
Theorem from_file_numeric_fields h p cfg :
  from_file h p = inr cfg ->
  exists m,
    read_json h p = inr (JObj m)
    /\ int_ h (field m "steps" (JInt 100)) = inr (steps cfg)
    /\ int_ h (field m "batch_size" (JInt 32)) = inr (batch_size cfg)
    /\ float_ h (field m "learning_rate" (JFloat 0.001)) = inr (learning_rate cfg)
    /\ int_ h (field m "input_dim" (JInt 128)) = inr (input_dim cfg)
    /\ int_ h (field m "output_dim" (JInt 64)) = inr (output_dim cfg)
    /\ int_ h (field m "hidden_dim" (JInt 128)) = inr (hidden_dim cfg).
Proof.
  intros Hf. destruct (from_file_reads_object h p cfg Hf) as [m Hm].
  exists m. split; [done|].
  destruct (from_file_inv h p m cfg Hm Hf) as (_ & _ & ? & ? & ? & ? & ? & ? & _).
  done.
Qed.

Lemma from_file_numeric_fields_witness :
  exists m,
    read_json (Demo.host Demo.cfg_path (JObj Demo.doc_out_of_range)) Demo.cfg_path = inr (JObj m)
    /\ int_ (Demo.host Demo.cfg_path (JObj Demo.doc_out_of_range)) (field m "steps" (JInt 100)) = inr (-5)
    /\ int_ (Demo.host Demo.cfg_path (JObj Demo.doc_out_of_range)) (field m "batch_size" (JInt 32)) = inr 0
    /\ float_ (Demo.host Demo.cfg_path (JObj Demo.doc_out_of_range)) (field m "learning_rate" (JFloat 0.001)) = inr (-0.5)%float
    /\ int_ (Demo.host Demo.cfg_path (JObj Demo.doc_out_of_range)) (field m "input_dim" (JInt 128)) = inr (-1)
    /\ int_ (Demo.host Demo.cfg_path (JObj Demo.doc_out_of_range)) (field m "output_dim" (JInt 64)) = inr 64
    /\ int_ (Demo.host Demo.cfg_path (JObj Demo.doc_out_of_range)) (field m "hidden_dim" (JInt 128)) = inr 128.
Proof.
  apply (from_file_numeric_fields _ Demo.cfg_path Demo.cfg_out_of_range).
  vm_compute. reflexivity.
Defined.

(** Claim C5.  In the configuration [from_file] produces from the file at
    [p], a relative string [v] given for [dataset_index] (or for
    [checkpoint_dir]) has become the resolution of the directory of [p]
    joined with [v], and an absolute one has become [Path(v)] itself. *)
Theorem from_file_resolves_paths h p m cfg :
  read_json h p = inr (JObj m) ->
  from_file h p = inr cfg ->
  (forall v, m !! "dataset_index" = Some (JStr v) ->
     if is_absolute (of_str v) then dataset_index cfg = of_str v
     else realpath h (join (parent p) (of_str v)) = inr (dataset_index cfg))
  /\ (forall v, m !! "checkpoint_dir" = Some (JStr v) ->
     if is_absolute (of_str v) then checkpoint_dir cfg = of_str v
     else realpath h (join (parent p) (of_str v)) = inr (checkpoint_dir cfg)).
Proof.
  intros Hm Hf.
  destruct (from_file_inv h p m cfg Hm Hf) as ((d & Hd & Hrd) & (c & Hc & Hrc) & _).
  split; intros v Hv.
  - rewrite Hv in Hd. injection Hd as <-. rewrite _resolve_str in Hrd.
    destruct (is_absolute (of_str v)); congruence.
  - rewrite Hv in Hc. injection Hc as <-. rewrite _resolve_str in Hrc.
    destruct (is_absolute (of_str v)); congruence.
Qed.

Lemma from_file_resolves_paths_witness :
  (forall v, Demo.doc_minimal !! "dataset_index" = Some (JStr v) ->
     if is_absolute (of_str v)
     then dataset_index Demo.cfg_minimal = of_str v
     else realpath (Demo.host Demo.cfg_path (JObj Demo.doc_minimal))
            (join (parent Demo.cfg_path) (of_str v))
          = inr (dataset_index Demo.cfg_minimal))
  /\ (forall v, Demo.doc_minimal !! "checkpoint_dir" = Some (JStr v) ->
     if is_absolute (of_str v)
     then checkpoint_dir Demo.cfg_minimal = of_str v
     else realpath (Demo.host Demo.cfg_path (JObj Demo.doc_minimal))
            (join (parent Demo.cfg_path) (of_str v))
          = inr (checkpoint_dir Demo.cfg_minimal)).
Proof.
  apply (from_file_resolves_paths _ Demo.cfg_path Demo.doc_minimal Demo.cfg_minimal).
  - vm_compute. reflexivity.
  - vm_compute. reflexivity.
Defined.

(** Claim C8 fails as stated: a JSON object with both required keys, whose
    [steps] is [null], is not loaded; [int(None)] raises [TypeError]. *)
Lemma from_file_fails_with_both_required_keys :
  is_Some (Demo.doc_null_steps !! "dataset_index")
  /\ is_Some (Demo.doc_null_steps !! "checkpoint_dir")
  /\ from_file (Demo.host Demo.cfg_path (JObj Demo.doc_null_steps)) Demo.cfg_path
     = inl TypeError.
Proof. split; [by eexists|]. split; [by eexists|]. vm_compute. reflexivity. Qed.

(** Claim C8, amended.  On a JSON object without [dataset_index],
    [from_file] raises [KeyError]; without [checkpoint_dir] it fails, with
    [KeyError] when [dataset_index] resolves (the code has no [ConfigError]).
    On an object in which both are present and resolve, it succeeds whenever
    the [int] and [float] conversions of the optional fields succeed, an
    absent field being converted from its default; with all optional fields
    absent the result has [steps = 100], [batch_size = 32],
    [learning_rate = 0.001], dimensions [128], [64], [128] and no notes. *)
Theorem from_file_required_and_defaults h p m :
  read_json h p = inr (JObj m) ->
  (m !! "dataset_index" = None -> from_file h p = inl (KeyError "dataset_index"))
  /\ (m !! "checkpoint_dir" = None -> exists e, from_file h p = inl e)
  /\ (forall d ds, m !! "dataset_index" = Some d -> _resolve h p d = inr ds ->
        m !! "checkpoint_dir" = None -> from_file h p = inl (KeyError "checkpoint_dir"))
  /\ (forall d ds c cd s b lr i o hd,
        m !! "dataset_index" = Some d -> _resolve h p d = inr ds ->
        m !! "checkpoint_dir" = Some c -> _resolve h p c = inr cd ->
        int_ h (field m "steps" (JInt 100)) = inr s ->
        int_ h (field m "batch_size" (JInt 32)) = inr b ->
        float_ h (field m "learning_rate" (JFloat 0.001)) = inr lr ->
        int_ h (field m "input_dim" (JInt 128)) = inr i ->
        int_ h (field m "output_dim" (JInt 64)) = inr o ->
        int_ h (field m "hidden_dim" (JInt 128)) = inr hd ->
        from_file h p = inr {| dataset_index := ds; checkpoint_dir := cd;
                               steps := s; batch_size := b; learning_rate := lr;
                               input_dim := i; output_dim := o; hidden_dim := hd;
                               notes := field m "notes" JNull |})
  /\ (forall d ds c cd,
        m !! "dataset_index" = Some d -> _resolve h p d = inr ds ->
        m !! "checkpoint_dir" = Some c -> _resolve h p c = inr cd ->
        m !! "steps" = None -> m !! "batch_size" = None ->
        m !! "learning_rate" = None -> m !! "input_dim" = None ->
        m !! "output_dim" = None -> m !! "hidden_dim" = None ->
        m !! "notes" = None ->
        from_file h p = inr {| dataset_index := ds; checkpoint_dir := cd;
                               steps := 100; batch_size := 32; learning_rate := 0.001;
                               input_dim := 128; output_dim := 64; hidden_dim := 128;
                               notes := JNull |}).
Proof.
  intros Hm. rewrite (from_file_obj h p m Hm).
  split; [by intros ->|]. split; [|split; [|split]].
  - intros Hc. destruct (m !! "dataset_index") as [d|]; [|by eauto].
    cbn [mbind result_bind]. destruct (_resolve h p d) as [e|ds]; [by eauto|].
    rewrite Hc. by eauto.
  - intros d ds -> Hd ->. cbn [mbind result_bind]. by rewrite Hd.
  - intros d ds c cd s b lr i o hd -> Hd -> Hc Hs Hb Hlr Hi Ho Hhd.
    cbn [mbind result_bind]. rewrite Hd, Hc. cbn [mbind result_bind].
    by rewrite Hs, Hb, Hlr, Hi, Ho, Hhd.
  - intros d ds c cd -> Hd -> Hc Hs Hb Hlr Hi Ho Hhd Hn.
    cbn [mbind result_bind]. rewrite Hd, Hc. unfold field.
    by rewrite Hs, Hb, Hlr, Hi, Ho, Hhd, Hn.
Qed.

Lemma from_file_required_and_defaults_witness :
  from_file (Demo.host Demo.cfg_path (JObj Demo.doc_no_checkpoint_dir)) Demo.cfg_path
    = inl (KeyError "checkpoint_dir")
  /\ from_file (Demo.host Demo.cfg_path (JObj Demo.doc_minimal)) Demo.cfg_path
    = inr Demo.cfg_minimal.
Proof.
  split.
  - eapply (from_file_required_and_defaults
              (Demo.host Demo.cfg_path (JObj Demo.doc_no_checkpoint_dir))
              Demo.cfg_path Demo.doc_no_checkpoint_dir);
      vm_compute; reflexivity.
  - eapply (from_file_required_and_defaults
              (Demo.host Demo.cfg_path (JObj Demo.doc_minimal))
              Demo.cfg_path Demo.doc_minimal);
      vm_compute; reflexivity.
Defined.

(** ** The device list of [main] *)

Lemma device_tokens_nonempty arg : Forall (fun token => token ≠ "") (device_tokens arg).
Proof. apply Forall_forall. by intros token [? _]%list_elem_of_filter. Qed.

Lemma device_tokens_commas arg :
  Forall (fun c => c = ","%char) (String.list_ascii_of_string arg) ->
  device_tokens arg = [].
Proof.
  intros Hs%split_only_separators. unfold device_tokens.
  induction Hs as [|token l -> _ IH]; [done|].
  by rewrite filter_cons, decide_False by (by intros []).
Qed.

Lemma main_inv h sys args w r w' :
  main h sys args w = (inr r, w') ->
  exists config,
    from_file h (arg_config args) = inr config
    /\ r = 0
    /\ run sys (context config args) (__init__ (context config args) w).2 = (inr tt, w')
    /\ log (__init__ (context config args) w).2 = log w.
Proof.
  unfold main. rewrite bind_eq. unfold lift at 1.
  destruct (from_file h (arg_config args)) as [e|config]; [done|].
  exists config. split; [done|]. revert H. rewrite bind_eq.
  unfold __init__, mkdir_parents. cbn [snd log]. rewrite bind_eq.
  destruct (run sys _ _) as [[e|[]] w1]; [done|].
  cbv [mret M_ret]. intros H; inversion H; subst. done.
Qed.

Lemma lookup_session_devices sys ctx tick :
  payload (session_start sys ctx tick) !! "devices" = Some (JArr (JStr <$> devices ctx)).
Proof. reflexivity. Qed.

(** Claim C10.  In a completed [main], the device list of the context
    handed to the session, which the [session_start] record shows, is the
    list of the pieces of [--devices] between commas, in order, without the
    empty ones.  The pieces joined by commas give the argument back and hold
    no comma; no token kept is empty; an argument made of commas only gives
    the empty list. *)
Theorem devices_argument_tokens h sys args w w' r :
  main h sys args w = (inr r, w') ->
  let tokens := filter (fun token => token ≠ "") (split "," (arg_devices args)) in
  (exists config rec,
     from_file h (arg_config args) = inr config
     /\ devices (context config args) = tokens
     /\ head (emitted w w') = Some rec
     /\ event rec = "session_start"
     /\ payload rec !! "devices" = Some (JArr (JStr <$> tokens)))
  /\ String.concat "," (split "," (arg_devices args)) = arg_devices args
  /\ Forall (fun token => contains "," token = false) (split "," (arg_devices args))
  /\ Forall (fun token => token ≠ "") tokens
  /\ (Forall (fun c => c = ","%char) (String.list_ascii_of_string (arg_devices args)) ->
      tokens = []).
Proof.
  intros (config & Hf & -> & Hrun & Hlog)%main_inv tokens.
  split; [|split; [apply split_join|split; [apply split_tokens|split]]].
  - apply run_inv in Hrun as (device & f & seconds & _ & -> & _).
    exists config, (session_start sys (context config args)
                      (ticks (__init__ (context config args) w).2)).
    split; [done|]. split; [done|]. split; [|split; [done|apply lookup_session_devices]].
    unfold emitted. rewrite <- Hlog. fold (emitted (__init__ (context config args) w).2
      (with_environ (completed sys (context config args) device seconds
         (__init__ (context config args) w).2) (f (environ (__init__ (context config args) w).2)))).
    by rewrite emitted_completed.
  - apply device_tokens_nonempty.
  - apply device_tokens_commas.
Qed.

Lemma devices_argument_tokens_witness :
  ((exists config rec,
     from_file (Demo.host Demo.cfg_path (JObj Demo.doc_minimal)) Demo.cfg_path = inr config
     /\ devices (context config (Demo.args "cuda:0,,cpu")) = ["cuda:0"; "cpu"]
     /\ head (emitted Demo.world0
                (main (Demo.host Demo.cfg_path (JObj Demo.doc_minimal)) Demo.sim_sys
                   (Demo.args "cuda:0,,cpu") Demo.world0).2) = Some rec
     /\ event rec = "session_start"
     /\ payload rec !! "devices" = Some (JArr (JStr <$> ["cuda:0"; "cpu"])))
   /\ String.concat "," (split "," "cuda:0,,cpu") = "cuda:0,,cpu"
   /\ Forall (fun token => contains "," token = false) (split "," "cuda:0,,cpu")
   /\ Forall (fun token => token ≠ "") ["cuda:0"; "cpu"]
   /\ (Forall (fun c => c = ","%char) (String.list_ascii_of_string "cuda:0,,cpu") ->
       ["cuda:0"; "cpu"] = []))
  /\ filter (fun token => token ≠ "") (split "," ",,,") = [].
Proof.
  split.
  - apply (devices_argument_tokens (Demo.host Demo.cfg_path (JObj Demo.doc_minimal))
             Demo.sim_sys (Demo.args "cuda:0,,cpu") Demo.world0 _ 0).
    vm_compute. reflexivity.
  - apply (devices_argument_tokens (Demo.host Demo.cfg_path (JObj Demo.doc_minimal))
             Demo.sim_sys (Demo.args ",,,") Demo.world0
             (main (Demo.host Demo.cfg_path (JObj Demo.doc_minimal)) Demo.sim_sys
                (Demo.args ",,,") Demo.world0).2 0).
    + vm_compute. reflexivity.
    + repeat constructor.
Defined.


(** ** What a session keeps, whether it completes or raises *)

Section Preserved.
Variable R : World -> World -> Prop.
Hypothesis R_refl : forall w, R w w.
Hypothesis R_trans : forall w1 w2 w3, R w1 w2 -> R w2 w3 -> R w1 w3.
Hypothesis R_time : forall sys w, R w (time_time sys w).2.
Hypothesis R_append : forall r w, R w (append_line r w).2.
Hypothesis R_mkdir : forall p w, R w (mkdir_parents p w).2.
Hypothesis R_write : forall p v w, R w (write_json p v w).2.
Hypothesis R_setenv : forall v w, R w (setenv "CUDA_VISIBLE_DEVICES" v w).2.










End Preserved.










(** ** The torch path, step by step *)

Lemma torch_loop_prefix sys t ctx device n : forall a w,
  Forall (fun i => exists x, train_step t device (config ctx) i = inr x) (Z.of_nat <$> seq a n) ->
  for_each (Z.of_nat <$> seq a n) (_run_torch_step sys t ctx device) tt w
  = (inr tt, logged w (imap (fun k i => torch_step sys (ticks w + k) i
                                          (torch_loss t device (config ctx) i))
                            (filter (fun step => step mod 10 = 0) (Z.of_nat <$> seq a n)))).
Proof.
  intros a w Hok. destruct (torch_loop_ok sys t ctx device n a w Hok) as [w' Hw'].
  rewrite Hw'. f_equal. by eapply torch_loop_inv.
Qed.

Lemma for_each_app {A S} (l1 l2 : list A) (body : A -> S -> M S) s w :
  for_each (l1 ++ l2) body s w
  = (for_each l1 body s ≫= fun s' => for_each l2 body s') w.
Proof.
  revert s w. induction l1 as [|x l1 IH]; intros s w; [done|].
  cbn [app for_each]. rewrite !bind_eq.
  destruct (body x s w) as [[e|s'] w1]; [done|]. by rewrite IH, bind_eq.
Qed.

Lemma torch_loop_succeeded sys t ctx device n : forall a w u w',
  for_each (Z.of_nat <$> seq a n) (_run_torch_step sys t ctx device) tt w = (inr u, w') ->
  Forall (fun i => train_step t device (config ctx) i
                   = inr (torch_loss t device (config ctx) i)) (Z.of_nat <$> seq a n).
Proof.
  induction n as [|n IH]; intros a w u w'; [by constructor|].
  cbn [seq fmap list_fmap for_each]. rewrite bind_eq. unfold _run_torch_step at 1.
  cbv [mbind M_bind mret M_ret lift].
  destruct (train_step t device (config ctx) (Z.of_nat a)) as [e|x] eqn:Hx; [done|].
  intros H. constructor; [by unfold torch_loss; rewrite Hx|].
  destruct (Z.of_nat a mod 10 =? 0)%Z; [rewrite _log_spec in H|]; by eapply IH.
Qed.

Lemma range_split (n j : Z) :
  0 <= j < n ->
  range n = range j ++ j :: (Z.of_nat <$> seq (S (Z.to_nat j)) (Z.to_nat n - S (Z.to_nat j))).
Proof.
  intros Hj. unfold range.
  replace (Z.to_nat n) with (Z.to_nat j + S (Z.to_nat n - S (Z.to_nat j)))%nat at 1 by lia.
  rewrite seq_app, fmap_app. cbn [seq fmap list_fmap]. do 2 f_equal. lia.
Qed.

Lemma torch_loop_raises sys t ctx device w j e :
  0 <= j < steps (config ctx) ->
  (forall i, 0 <= i < j -> exists x, train_step t device (config ctx) i = inr x) ->
  train_step t device (config ctx) j = inl e ->
  for_each (range (steps (config ctx))) (_run_torch_step sys t ctx device) tt w
  = (inl e, logged w (imap (fun k i => torch_step sys (ticks w + k) i
                                         (torch_loss t device (config ctx) i))
                           (logged_steps j))).
Proof.
  intros Hj Hok He. rewrite (range_split _ j Hj), for_each_app, bind_eq.
  unfold range at 1. rewrite torch_loop_prefix.
  - cbn [for_each]. rewrite bind_eq. unfold _run_torch_step at 1.
    cbv [mbind M_bind lift]. by rewrite He.
  - apply Forall_forall. intros i (k & -> & Hk%elem_of_seq)%list_elem_of_fmap.
    apply Hok. lia.
Qed.

(** ** The device a torch session runs on *)

Lemma split_cons_sep c a b :
  contains c a = false -> split c (a +:+ String c b) = a :: split c b.
Proof.
  induction a as [|d a IH]; intros Ha.
  - simpl. by rewrite Ascii.eqb_refl.
  - simpl in Ha. apply orb_false_iff in Ha as [Hd Ha].
    simpl. rewrite Hd, (IH Ha). done.
Qed.

Lemma _select_torch_device_cases t ctx w :
  _select_torch_device t ctx w = (inr "cpu", w)
  \/ exists preferred rest ordinal,
       devices ctx = preferred :: rest
       /\ startswith preferred "cuda" = true
       /\ cuda_is_available t = true
       /\ (if contains ":" preferred then split ":" preferred !! 1%nat = Some ordinal
           else ordinal = "0")
       /\ _select_torch_device t ctx w
          = (inr "cuda:0",
             with_environ w (<["CUDA_VISIBLE_DEVICES" := ordinal]> (environ w))).
Proof.
  unfold _select_torch_device.
  destruct (devices ctx) as [|preferred rest]; [by left|].
  destruct (startswith preferred "cuda") eqn:Hp; [|by left].
  destruct (cuda_is_available t) eqn:Hc; [|by left].
  right. exists preferred, rest. cbn [andb].
  destruct (contains ":" preferred) eqn:Hcolon.
  - destruct (split_contains _ _ Hcolon) as (a & b & rest' & Hs).
    exists b. rewrite Hs. done.
  - by exists "0".
Qed.






(** [run] after its first record. *)
Lemma run_unfold sys ctx w :
  run sys ctx w
  = (match torch sys with
     | Some t => _run_torch sys t ctx
     | None => _simulate sys ctx
     end;;
     _log sys ctx "session_complete" ∅)
      (logged w [session_start sys ctx (ticks w)]).
Proof. unfold run. by rewrite bind_eq, _log_spec. Qed.

Lemma emitted_eq w w' recs : log w' = log w ++ recs -> emitted w w' = recs.
Proof. unfold emitted. intros ->. by rewrite drop_app_length. Qed.

Lemma step_indices_torch sys (loss : Z -> float) l tick :
  (step_events (imap (fun k i => torch_step sys (tick + k) i (loss i)) l)).*1 = l.
Proof.
  rewrite step_events_torch, <- list_fmap_compose.
  rewrite <- (list_fmap_id l) at 2. by apply list_fmap_ext.
Qed.


Lemma logged_steps_max n : logged_steps (Z.max 0 n) = logged_steps n.
Proof. unfold logged_steps, range. do 3 f_equal. lia. Qed.

Lemma select_device_of t ctx w device :
  (_select_torch_device t ctx w).1 = inr device ->
  exists f, forall w0, _select_torch_device t ctx w0
                       = (inr device, with_environ w0 (f (environ w0))).
Proof.
  destruct (_select_torch_device_returns t ctx) as (d & f & Hsel).
  rewrite Hsel. cbn [fst]. intros H; inversion H; subst. by exists f.
Qed.


(** ** A session in every outcome *)

Lemma run_on_device sys t ctx w device w1 :
  torch sys = Some t ->
  _select_torch_device t ctx (logged w [session_start sys ctx (ticks w)]) = (inr device, w1) ->
  run sys ctx w
  = ((lift (build t device (config ctx));;
      for_each (range (steps (config ctx))) (_run_torch_step sys t ctx device) tt;;
      _write_checkpoint sys ctx);;
     _log sys ctx "session_complete" ∅) w1.
Proof.
  intros Ht Hsel. rewrite run_unfold, Ht. unfold _run_torch.
  rewrite (bind_eq (_ ≫= _)), (bind_eq (_select_torch_device t ctx)), Hsel.
  by rewrite (bind_eq (_ ≫= _)).
Qed.

Lemma torch_session_inv sys t ctx device w u w' :
  (lift (build t device (config ctx));;
   for_each (range (steps (config ctx))) (_run_torch_step sys t ctx device) tt;;
   _write_checkpoint sys ctx) w = (inr u, w') ->
  build t device (config ctx) = inr tt
  /\ Forall (fun i => train_step t device (config ctx) i
                      = inr (torch_loss t device (config ctx) i))
            (range (steps (config ctx))).
Proof.
  rewrite bind_eq. unfold lift at 1.
  destruct (build t device (config ctx)) as [e|[]]; [done|].
  rewrite bind_eq.
  destruct (for_each _ _ _ _) as [[e|[]] w1] eqn:Hloop; [done|].
  intros _. split; [done|]. by eapply torch_loop_succeeded.
Qed.





Lemma bind_inr_inv {A B} (m : M A) (f : A -> M B) w y w' :
  (m ≫= f) w = (inr y, w') -> exists x w1, m w = (inr x, w1) /\ f x w1 = (inr y, w').
Proof. rewrite bind_eq. destruct (m w) as [[e|x] w1]; [done|]. eauto. Qed.

(** X4.  When [torch] is there and the model is built, and step [j] is the
    first whose computation raises, [run] raises that same exception; the log
    got [session_start] and then the [step] records of the indices below [j]
    that are multiples of 10, each with the loss [torch] returned, and
    nothing after them: the failing step is not logged, no checkpoint is
    written. *)
Theorem torch_failure_at_step sys t ctx w device j e :
  torch sys = Some t ->
  (_select_torch_device t ctx w).1 = inr device ->
  build t device (config ctx) = inr tt ->
  0 <= j < steps (config ctx) ->
  (forall i, 0 <= i < j -> exists x, train_step t device (config ctx) i = inr x) ->
  train_step t device (config ctx) j = inl e ->
  (run sys ctx w).1 = inl e
  /\ emitted w (run sys ctx w).2
     = session_start sys ctx (ticks w)
         :: imap (fun k i => torch_step sys (S (ticks w) + k) i
                               (torch_loss t device (config ctx) i))
                 (logged_steps j)
  /\ files (run sys ctx w).2 = files w
  /\ dirs (run sys ctx w).2 = dirs w.
Proof.
  intros Ht [f Hsel]%select_device_of Hb Hj Hok He.
  assert (run sys ctx w
          = (inl e, logged (with_environ (logged w [session_start sys ctx (ticks w)])
                              (f (environ w)))
                      (imap (fun k i => torch_step sys (ticks w + 1 + k) i
                                          (torch_loss t device (config ctx) i))
                            (logged_steps j)))) as ->.
  { rewrite (run_on_device _ _ _ _ _ _ Ht (Hsel _)).
    rewrite (bind_eq (_ ≫= _)), (bind_eq (lift _)). unfold lift at 1. rewrite Hb.
    rewrite (bind_eq (for_each _ _ _)).
    by rewrite (torch_loop_raises _ _ _ _ _ j e Hj Hok He). }
  cbn [fst snd]. split; [done|]. split; [|done].
  apply emitted_eq. cbn [logged with_environ log ticks length].
  rewrite <- app_assoc. cbn [app]. do 2 f_equal.
  apply imap_ext. intros k i _. cbn beta. f_equal. lia.
Qed.

Lemma torch_failure_at_step_witness :
  (run (Demo.sys_with Demo.failing_torch) (Demo.ctx 40) Demo.world0).1 = inl RuntimeError
  /\ emitted Demo.world0 (run (Demo.sys_with Demo.failing_torch) (Demo.ctx 40) Demo.world0).2
     = session_start (Demo.sys_with Demo.failing_torch) (Demo.ctx 40) 0
         :: imap (fun k i => torch_step (Demo.sys_with Demo.failing_torch) (1 + k) i
                               (torch_loss Demo.failing_torch "cpu" (Demo.cfg 40) i))
                 (logged_steps 15)
  /\ files (run (Demo.sys_with Demo.failing_torch) (Demo.ctx 40) Demo.world0).2 = []
  /\ dirs (run (Demo.sys_with Demo.failing_torch) (Demo.ctx 40) Demo.world0).2 = [].
Proof.
  apply (torch_failure_at_step (Demo.sys_with Demo.failing_torch) Demo.failing_torch
           (Demo.ctx 40) Demo.world0 "cpu" 15 RuntimeError).
  - reflexivity.
  - reflexivity.
  - reflexivity.
  - cbn. lia.
  - intros i Hi. exists 0.25%float. cbn.
    destruct (Z.eqb_spec i 15) as [->|_]; [lia|done].
  - reflexivity.
Defined.

(** X5.  When [torch] is there and building the model on the selected device
    raises, [run] raises that exception right after the [session_start]
    record: no step is run, nothing else is logged or written, and
    [CUDA_VISIBLE_DEVICES] stays as the device selection left it. *)
Theorem torch_build_failure sys t ctx w device e :
  torch sys = Some t ->
  (_select_torch_device t ctx w).1 = inr device ->
  build t device (config ctx) = inl e ->
  run sys ctx w
  = (inl e, with_environ (logged w [session_start sys ctx (ticks w)])
              (environ (_select_torch_device t ctx w).2)).
Proof.
  intros Ht [f Hsel]%select_device_of Hb.
  rewrite (run_on_device _ _ _ _ _ _ Ht (Hsel _)).
  rewrite (bind_eq (_ ≫= _)), (bind_eq (lift _)). unfold lift at 1. rewrite Hb.
  by rewrite Hsel.
Qed.

Lemma torch_build_failure_witness :
  run (Demo.sys_with Demo.unbuildable_torch) (Demo.ctx 40) Demo.world0
  = (inl RuntimeError,
     with_environ
       (logged Demo.world0 [session_start (Demo.sys_with Demo.unbuildable_torch) (Demo.ctx 40) 0])
       ∅).
Proof.
  apply (torch_build_failure (Demo.sys_with Demo.unbuildable_torch) Demo.unbuildable_torch
           (Demo.ctx 40) Demo.world0 "cpu" RuntimeError); reflexivity.
Defined.

(** X6.  In a completed [run] with [torch], the model was built on the device
    [_select_torch_device] returned, every step of [range(steps)] was
    computed on that device without raising, and the [step] records are those
    of the multiples of 10 below [steps], in order, each carrying the loss
    [torch] returned for its step. *)
Theorem torch_step_records sys t ctx w w' :
  torch sys = Some t ->
  run sys ctx w = (inr tt, w') ->
  exists device,
    (_select_torch_device t ctx w).1 = inr device
    /\ build t device (config ctx) = inr tt
    /\ (forall i, 0 <= i < steps (config ctx) ->
                  exists x, train_step t device (config ctx) i = inr x)
    /\ (step_events (emitted w w')).*1 = logged_steps (steps (config ctx))
    /\ Forall (fun ix => train_step t device (config ctx) ix.1 = inr ix.2)
              (step_events (emitted w w')).
Proof.
  intros Ht Hrun.
  destruct (run_inv _ _ _ _ Hrun) as (device & f & seconds & _ & Hw' & Hsel).
  rewrite Ht in Hsel. exists device. split; [by rewrite Hsel|].
  rewrite (run_on_device _ _ _ _ _ _ Ht (Hsel _)) in Hrun.
  apply bind_inr_inv in Hrun as (u & w2 & Hsess & _).
  apply torch_session_inv in Hsess as [Hb Hall].
  split; [done|]. split.
  { intros i Hi. rewrite Forall_forall in Hall. eexists. apply Hall.
    unfold range. apply list_elem_of_fmap. exists (Z.to_nat i).
    split; [lia|]. apply elem_of_seq. lia. }
  subst w'. rewrite step_events_emitted. unfold session_steps. rewrite Ht.
  split; [apply step_indices_torch|].
  rewrite step_events_torch. apply Forall_fmap, Forall_forall.
  intros i [Hi _]%elem_of_logged_steps. cbn [fst snd].
  rewrite Forall_forall in Hall. apply Hall.
  unfold range. apply list_elem_of_fmap. exists (Z.to_nat i).
  cbn [fst]. split; [lia|]. apply elem_of_seq. lia.
Qed.

Lemma torch_step_records_witness :
  exists device,
    (_select_torch_device Demo.cpu_torch (Demo.ctx 25) Demo.world0).1 = inr device
    /\ build Demo.cpu_torch device (Demo.cfg 25) = inr tt
    /\ (forall i, 0 <= i < 25 -> exists x, train_step Demo.cpu_torch device (Demo.cfg 25) i = inr x)
    /\ (step_events (emitted Demo.world0 (run Demo.torch_sys (Demo.ctx 25) Demo.world0).2)).*1
       = logged_steps 25
    /\ Forall (fun ix => train_step Demo.cpu_torch device (Demo.cfg 25) ix.1 = inr ix.2)
              (step_events (emitted Demo.world0 (run Demo.torch_sys (Demo.ctx 25) Demo.world0).2)).
Proof.
  apply (torch_step_records Demo.torch_sys Demo.cpu_torch (Demo.ctx 25) Demo.world0).
  - reflexivity.
  - vm_compute. reflexivity.
Defined.

(** ** When a session completes *)

Lemma length_logged_steps n :
  length (logged_steps n) = Z.to_nat ((Z.max 0 n + 9) / 10).
Proof.
  rewrite <- (logged_steps_max n). unfold logged_steps, range.
  assert (forall k : nat,
            length (filter (fun step => step mod 10 = 0) (Z.of_nat <$> seq 0 k))
            = Z.to_nat ((Z.of_nat k + 9) / 10)) as Hk.
  { induction k as [|k IH]; [done|].
    rewrite seq_S, fmap_app, filter_app, length_app, IH. cbn [fmap list_fmap Nat.add].
    rewrite filter_cons, filter_nil.
    pose proof (Z.div_mod (Z.of_nat k + 9) 10 ltac:(lia)).
    pose proof (Z.mod_pos_bound (Z.of_nat k + 9) 10 ltac:(lia)).
    pose proof (Z.div_mod (Z.of_nat (S k) + 9) 10 ltac:(lia)).
    pose proof (Z.mod_pos_bound (Z.of_nat (S k) + 9) 10 ltac:(lia)).
    pose proof (Z.div_mod (Z.of_nat k) 10 ltac:(lia)).
    pose proof (Z.mod_pos_bound (Z.of_nat k) 10 ltac:(lia)).
    case_decide; cbn [length]; lia. }
  rewrite Hk. do 2 f_equal. lia.
Qed.

(** X7.  A completed [run] appended three records and one for every tenth
    step: [3 + ceil(steps / 10)] lines, three when [steps] is not positive.
    The clock was read once for each record and twice for the checkpoint. *)
Theorem run_record_count sys ctx w w' :
  run sys ctx w = (inr tt, w') ->
  length (emitted w w') = (3 + Z.to_nat ((Z.max 0 (steps (config ctx)) + 9) / 10))%nat
  /\ ticks w' = (ticks w + length (emitted w w') + 2)%nat.
Proof.
  intros (device & f & seconds & _ & -> & _)%run_inv.
  rewrite ticks_completed, emitted_completed. unfold write_tick.
  cbn [length]. rewrite length_app, length_session_steps, length_logged_steps.
  cbn [length]. lia.
Qed.

Lemma run_record_count_witness :
  length (emitted Demo.world0 (run Demo.sim_sys (Demo.ctx 25) Demo.world0).2) = 6%nat
  /\ ticks (run Demo.sim_sys (Demo.ctx 25) Demo.world0).2 = 8%nat.
Proof.
  apply (run_record_count Demo.sim_sys (Demo.ctx 25) Demo.world0).
  vm_compute. reflexivity.
Defined.




(** ** The device selection, case by case *)

(** X9.  [_select_torch_device] never raises, although it indexes the second
    piece of the split device name: it returns ["cpu"] and changes nothing,
    or it returns ["cuda:0"] and sets [CUDA_VISIBLE_DEVICES], the latter only
    when an accelerator is available and the first requested device starts
    with [cuda]; later entries of the list play no part. *)
Theorem select_device_never_raises t ctx w :
  exists device w',
    _select_torch_device t ctx w = (inr device, w')
    /\ (device = "cpu" /\ w' = w
        \/ device = "cuda:0"
           /\ cuda_is_available t = true
           /\ (exists preferred rest,
                 devices ctx = preferred :: rest /\ startswith preferred "cuda" = true)
           /\ exists ordinal,
                w' = with_environ w (<["CUDA_VISIBLE_DEVICES" := ordinal]> (environ w))).
Proof.
  destruct (_select_torch_device_cases t ctx w)
    as [Hsel|(preferred & rest & ordinal & Hd & Hp & Hc & _ & Hsel)].
  - exists "cpu", w. split; [done|]. by left.
  - eexists "cuda:0", _. split; [done|]. right.
    split; [done|]. split; [done|]. split; [by exists preferred, rest|by exists ordinal].
Qed.

(** X10.  With an accelerator available and a first requested device that
    starts with [cuda], [_select_torch_device] returns ["cuda:0"] whatever
    the ordinal asked for, and sets [CUDA_VISIBLE_DEVICES] to the text
    between the first colon of the name and the next one (or the end): ["0"]
    when the name has no colon, [o] for [cuda:o], and the empty text for a
    name that ends in its first colon.  Nothing else of the world changes. *)
Theorem select_device_cuda_ordinal t ctx w preferred rest :
  cuda_is_available t = true ->
  devices ctx = preferred :: rest ->
  startswith preferred "cuda" = true ->
  exists ordinal,
    _select_torch_device t ctx w
    = (inr "cuda:0", with_environ w (<["CUDA_VISIBLE_DEVICES" := ordinal]> (environ w)))
    /\ (contains ":" preferred = false -> ordinal = "0")
    /\ (forall a o, preferred = a +:+ ":" +:+ o ->
          contains ":" a = false -> contains ":" o = false -> ordinal = o)
    /\ (forall a o tl, preferred = a +:+ ":" +:+ o +:+ ":" +:+ tl ->
          contains ":" a = false -> contains ":" o = false -> ordinal = o).
Proof.
  intros Hc Hd Hp. unfold _select_torch_device. rewrite Hd, Hp, Hc. cbn [andb].
  destruct (contains ":" preferred) eqn:Hcolon.
  - destruct (split_contains _ _ Hcolon) as (a' & b & rest' & Hs).
    exists b. rewrite Hs. split; [done|]. split; [done|]. split.
    + intros a o -> Ha Ho. change (a +:+ ":" +:+ o) with (a +:+ String ":" o) in Hs.
      rewrite (split_cons_sep _ _ _ Ha), (split_without _ _ Ho) in Hs. congruence.
    + intros a o tl -> Ha Ho.
      change (a +:+ ":" +:+ o +:+ ":" +:+ tl)
        with (a +:+ String ":" (o +:+ String ":" tl)) in Hs.
      rewrite (split_cons_sep _ _ _ Ha), (split_cons_sep _ _ _ Ho) in Hs. congruence.
  - exists "0". split; [done|]. split; [done|]. split.
    + intros a o -> _ _. change (a +:+ ":" +:+ o) with (a +:+ String ":" o) in Hcolon.
      rewrite contains_app in Hcolon. simpl in Hcolon.
      by rewrite orb_true_r in Hcolon.
    + intros a o tl -> _ _.
      change (a +:+ ":" +:+ o +:+ ":" +:+ tl)
        with (a +:+ String ":" (o +:+ String ":" tl)) in Hcolon.
      rewrite contains_app in Hcolon. simpl in Hcolon.
      by rewrite orb_true_r in Hcolon.
Qed.

Lemma select_device_cuda_ordinal_witness :
  exists ordinal,
    _select_torch_device Demo.cuda_torch (Demo.ctx_on ["cuda:1"; "cuda:0"] 20) Demo.world0
    = (inr "cuda:0",
       with_environ Demo.world0 (<["CUDA_VISIBLE_DEVICES" := ordinal]> (environ Demo.world0)))
    /\ (contains ":" "cuda:1" = false -> ordinal = "0")
    /\ (forall a o, "cuda:1" = a +:+ ":" +:+ o ->
          contains ":" a = false -> contains ":" o = false -> ordinal = o)
    /\ (forall a o tl, "cuda:1" = a +:+ ":" +:+ o +:+ ":" +:+ tl ->
          contains ":" a = false -> contains ":" o = false -> ordinal = o).
Proof.
  apply (select_device_cuda_ordinal Demo.cuda_torch (Demo.ctx_on ["cuda:1"; "cuda:0"] 20)
           Demo.world0 "cuda:1" ["cuda:0"]); reflexivity.
Defined.

(** ** Paths and their text *)

Lemma split_concat c l :
  l ≠ [] -> Forall (fun x => contains c x = false) l ->
  split c (String.concat (String c "") l) = l.
Proof.
  induction l as [|x l IH]; [done|]. intros _ [Hx Hl]%Forall_cons.
  destruct l as [|y l]; [by apply split_without|].
  change (String.concat (String c "") (x :: y :: l))
    with (x +:+ String c (String.concat (String c "") (y :: l))).
  by rewrite (split_cons_sep _ _ _ Hx), IH.
Qed.

Lemma filter_all {A} (P : A -> Prop) `{!forall x, Decision (P x)} (l : list A) :
  Forall P l -> filter P l = l.
Proof.
  induction 1 as [|x l Hx _ IH]; [done|]. by rewrite filter_cons, decide_True, IH.
Qed.

Lemma splitroot_rooted r d s :
  Ascii.eqb d "/" = false -> splitroot (Root_str r +:+ String d s) = (r, String d s).
Proof.
  intros Hd. destruct r; simpl;
    destruct d as [[] [] [] [] [] [] [] []]; try reflexivity; discriminate Hd.
Qed.

Lemma concat_first sep d x l :
  exists s, String.concat sep (String d x :: l) = String d s.
Proof. destruct l; simpl; eauto. Qed.

Lemma of_str_to_str p : normal p -> of_str (to_str p) = p.
Proof.
  destruct p as [r [|x ps]]; [by destruct r|].
  intros Hn. pose proof Hn as [(Hx & _ & Hslash) _]%Forall_cons.
  destruct x as [|d x]; [done|].
  destruct (concat_first "/" d x ps) as [s Hs].
  assert (to_str {| root := r; parts := String d x :: ps |}
          = Root_str r +:+ String.concat "/" (String d x :: ps)) as -> by by destruct r.
  unfold of_str. rewrite Hs, splitroot_rooted.
  2: { simpl in Hslash. by apply orb_false_iff in Hslash as [? _]. }
  rewrite <- Hs, split_concat; [|done|].
  - f_equal. apply filter_all. eapply Forall_impl; [exact Hn|].
    by intros y (? & ? & _).
  - eapply Forall_impl; [exact Hn|]. by intros y (_ & _ & ?).
Qed.

Lemma of_str_normal s : normal (of_str s).
Proof.
  unfold normal, of_str. destruct (splitroot s) as [r rel]. cbn [parts].
  apply Forall_forall. intros x [[Hx1 Hx2] Hin]%list_elem_of_filter.
  split; [done|]. split; [done|].
  pose proof (split_tokens "/" rel) as Hall. rewrite Forall_forall in Hall. by apply Hall.
Qed.

Lemma meta_path_normal ctx seconds :
  normal (checkpoint_dir (config ctx)) -> normal (meta_path ctx seconds).
Proof.
  intros Hn. unfold normal, meta_path. rewrite of_str_meta_name.
  unfold join. cbn [is_absolute root parts]. apply Forall_app. split; [done|].
  constructor; [|done]. unfold checkpoint_id. split; [by simpl|]. split; [by simpl|].
  by rewrite !contains_app, str_of_int_digits.
Qed.

Lemma checkpoint_info_steps sys ctx device tick :
  omap checkpoint_info (session_steps sys ctx device tick) = [].
Proof.
  pose proof (events_session sys ctx device tick) as Hev.
  revert Hev. generalize (length (logged_steps (steps (config ctx)))).
  induction (session_steps sys ctx device tick) as [|r l IH]; intros k Hev; [done|].
  destruct k as [|k]; [done|]. cbn [fmap list_fmap replicate] in Hev.
  injection Hev as Hr Hl. cbn [omap list_omap]. unfold checkpoint_info at 1.
  rewrite Hr. cbn. by eapply IH.
Qed.

(** X11.  The [checkpoint] record of a completed [run] leads to the metadata
    file: the log has one such record, and the text it gives under [meta],
    read back as a path, is the path of a file the session wrote, in the
    checkpoint directory.  The directory is taken to be a path as [Path]
    makes it, with no empty, [.] or slashed component. *)
Theorem checkpoint_record_locates_file sys ctx w w' :
  normal (checkpoint_dir (config ctx)) ->
  run sys ctx w = (inr tt, w') ->
  exists text meta id,
    omap checkpoint_info (emitted w w') = [text]
    /\ file_at (of_str text) (files w') = Some (JObj meta)
    /\ parent (of_str text) = checkpoint_dir (config ctx)
    /\ name (of_str text) = id +:+ ".meta.json"
    /\ meta !! "id" = Some (JStr id).
Proof.
  intros Hn (device & f & seconds & _ & -> & _)%run_inv.
  exists (to_str (meta_path ctx seconds)). eexists. exists (checkpoint_id seconds).
  rewrite of_str_to_str by by apply meta_path_normal.
  rewrite files_completed, emitted_completed. cbn [file_at].
  rewrite decide_True by done. split; [|split; [done|split; [|split]]].
  - cbn [omap list_omap]. rewrite omap_app, checkpoint_info_steps. done.
  - unfold meta_path. rewrite of_str_meta_name. apply parent_join_name.
  - unfold meta_path. rewrite of_str_meta_name. apply parent_join_name.
  - apply lookup_checkpoint_meta.
Qed.

Lemma checkpoint_record_locates_file_witness :
  exists text meta id,
    omap checkpoint_info
      (emitted Demo.world0 (run Demo.sim_sys (Demo.ctx 20) Demo.world0).2) = [text]
    /\ file_at (of_str text) (files (run Demo.sim_sys (Demo.ctx 20) Demo.world0).2)
       = Some (JObj meta)
    /\ parent (of_str text) = of_str "/srv/zappy/checkpoints"
    /\ name (of_str text) = id +:+ ".meta.json"
    /\ meta !! "id" = Some (JStr id).
Proof.
  apply (checkpoint_record_locates_file Demo.sim_sys (Demo.ctx 20) Demo.world0).
  - apply of_str_normal.
  - vm_compute. reflexivity.
Defined.

(** ** What the metadata file holds *)




(** ** [main], from the command line to the session *)

(** X13.  For device names without comma, the [--devices] argument made of
    them joined by commas is read back as the list of those that are not
    empty, in order: empty names, hence doubled, leading and trailing
    commas, leave no trace, and the empty argument gives the empty list. *)
Theorem device_tokens_concat (l : list string) :
  Forall (fun x => contains "," x = false) l ->
  device_tokens (String.concat "," l) = filter (fun x => x ≠ "") l.
Proof.
  intros Hl. unfold device_tokens. destruct l as [|x l]; [done|].
  by rewrite split_concat.
Qed.

Lemma device_tokens_concat_witness :
  device_tokens ",cuda:1,,cpu," = ["cuda:1"; "cpu"].
Proof.
  apply (device_tokens_concat [""; "cuda:1"; ""; "cpu"; ""]).
  repeat constructor.
Defined.


(** ** What [from_file] reads and what it rejects *)

Lemma int_ext (h h' : Host Path) v :
  int_of_str h = int_of_str h' -> int_ h v = int_ h' v.
Proof. intros Hi. destruct v; cbn [int_]; by rewrite ?Hi. Qed.

Lemma float_ext (h h' : Host Path) v :
  float_of_str h = float_of_str h' -> float_ h v = float_ h' v.
Proof. intros Hf. destruct v; cbn [float_]; by rewrite ?Hf. Qed.

Lemma _resolve_ext (h h' : Host Path) p v :
  realpath h = realpath h' -> _resolve h p v = _resolve h' p v.
Proof. intros Hr. destruct v; cbn [_resolve]; by rewrite ?Hr. Qed.

(** X15.  [from_file] passes on the exception of reading or decoding the
    file.  A document that is not a JSON object is rejected with
    [TypeError], and so is an object whose [dataset_index] is not a string,
    or whose [dataset_index] resolves and whose [checkpoint_dir] is not a
    string: no path is made from a number, a list or [null]. *)
Theorem from_file_rejects h p :
  match read_json h p with
  | inl e => from_file h p = inl e
  | inr (JObj m) =>
      (forall v, m !! "dataset_index" = Some v -> (forall s, v ≠ JStr s) ->
                 from_file h p = inl TypeError)
      /\ (forall d ds v, m !! "dataset_index" = Some d -> _resolve h p d = inr ds ->
                         m !! "checkpoint_dir" = Some v -> (forall s, v ≠ JStr s) ->
                         from_file h p = inl TypeError)
  | inr _ => from_file h p = inl TypeError
  end.
Proof.
  destruct (read_json h p) as [e|data] eqn:Hr.
  { unfold from_file, _load_json. by rewrite Hr. }
  destruct data; try (unfold from_file, _load_json; by rewrite Hr).
  rewrite (from_file_obj h p m Hr). split.
  - intros v -> Hv. cbn [mbind result_bind].
    destruct v; try done. by destruct (Hv s).
  - intros d ds v -> Hd -> Hv. cbn [mbind result_bind]. rewrite Hd.
    cbn [mbind result_bind]. destruct v; try done. by destruct (Hv s).
Qed.

(** X16.  [from_file] reads nine keys of the document and nothing else: two
    documents that agree on [dataset_index], [checkpoint_dir], [steps],
    [batch_size], [learning_rate], [input_dim], [output_dim], [hidden_dim]
    and [notes] give the same configuration, or the same exception, whatever
    else they hold. *)
Theorem from_file_reads_nine_keys (h h' : Host Path) p m m' :
  int_of_str h = int_of_str h' ->
  float_of_str h = float_of_str h' ->
  realpath h = realpath h' ->
  read_json h p = inr (JObj m) ->
  read_json h' p = inr (JObj m') ->
  (forall k, k ∈ ["dataset_index"; "checkpoint_dir"; "steps"; "batch_size";
                  "learning_rate"; "input_dim"; "output_dim"; "hidden_dim"; "notes"] ->
             m !! k = m' !! k) ->
  from_file h p = from_file h' p.
Proof.
  intros Hi Hf Hr Hm Hm' Hk.
  rewrite (from_file_obj h p m Hm), (from_file_obj h' p m' Hm'). unfold field.
  rewrite <- !Hk by (rewrite !elem_of_cons; tauto).
  rewrite !(int_ext h h' _ Hi), !(float_ext h h' _ Hf).
  destruct (m !! "dataset_index") as [d|]; [|done]. cbn [mbind result_bind].
  rewrite (_resolve_ext h h' p d Hr).
  destruct (_resolve h' p d) as [e|ds]; [done|].
  destruct (m !! "checkpoint_dir") as [c|]; [|done]. cbn [mbind result_bind].
  by rewrite (_resolve_ext h h' p c Hr).
Qed.

Lemma from_file_reads_nine_keys_witness :
  from_file (Demo.host Demo.cfg_path (JObj Demo.doc_minimal)) Demo.cfg_path
  = from_file (Demo.host Demo.cfg_path
                 (JObj (<["comment" := JStr "nightly"]> (<["seed" := JInt 7]> Demo.doc_minimal))))
      Demo.cfg_path.
Proof.
  apply (from_file_reads_nine_keys _ _ Demo.cfg_path Demo.doc_minimal
           (<["comment" := JStr "nightly"]> (<["seed" := JInt 7]> Demo.doc_minimal)));
    try reflexivity.
  intros k Hk. rewrite !elem_of_cons, elem_of_nil in Hk.
  destruct Hk as [->|[->|[->|[->|[->|[->|[->|[->|[->|[]]]]]]]]]]; reflexivity.
Defined.

(** X17.  An absolute path survives a configuration file: [_resolve] gives
    back the path [q] from its text [str(q)], whatever the file it is read
    from and without asking the file system, for an absolute [q] as [Path]
    makes it. *)
Theorem resolve_absolute_round_trip h base q :
  is_absolute q = true ->
  normal q ->
  _resolve h base (JStr (to_str q)) = inr q.
Proof. intros Ha Hn. by rewrite _resolve_str, (of_str_to_str q Hn), Ha. Qed.

Lemma resolve_absolute_round_trip_witness :
  _resolve (Demo.host Demo.cfg_path JNull) Demo.cfg_path
    (JStr (to_str (of_str "//srv/zappy/./checkpoints/")))
  = inr (of_str "//srv/zappy/./checkpoints/").
Proof.
  apply (resolve_absolute_round_trip (Demo.host Demo.cfg_path JNull) Demo.cfg_path
           (of_str "//srv/zappy/./checkpoints/")).
  - reflexivity.
  - apply of_str_normal.
Defined.

(** ** What a session reads *)

(** X18.  What a session reads of its context: never the weights; and
    without [torch], of the configuration only [steps], [checkpoint_dir] and
    [notes].  Two contexts that agree on what is read give the same
    outcome and the same world; in particular the dataset index, the batch
    size, the learning rate and the dimensions have no effect on a simulated
    session. *)
Theorem run_reads sys ctx ctx' w :
  devices ctx = devices ctx' ->
  profile ctx = profile ctx' ->
  log_file ctx = log_file ctx' ->
  match torch sys with
  | Some _ => config ctx = config ctx'
  | None => steps (config ctx) = steps (config ctx')
            /\ checkpoint_dir (config ctx) = checkpoint_dir (config ctx')
            /\ notes (config ctx) = notes (config ctx')
  end ->
  run sys ctx w = run sys ctx' w.
Proof.
  destruct ctx as [cfg ds wts pr lf], ctx' as [cfg' ds' wts' pr' lf'].
  cbn [devices profile log_file config]. intros -> -> -> Hcfg.
  unfold run. destruct (torch sys) as [t|].
  - by subst cfg'.
  - destruct cfg, cfg'. cbn [steps checkpoint_dir notes] in Hcfg.
    destruct Hcfg as (-> & -> & ->). reflexivity.
Qed.

Lemma run_reads_witness :
  run Demo.sim_sys (Demo.ctx 20) Demo.world0
  = run Demo.sim_sys
      {| config := {| dataset_index := of_str "elsewhere.json";
                      checkpoint_dir := of_str "/srv/zappy/checkpoints";
                      steps := 20;
                      batch_size := 1;
                      learning_rate := 0.5;
                      input_dim := 2;
                      output_dim := 2;
                      hidden_dim := 2;
                      notes := JNull |};
         devices := ["cuda:0"];
         weights := Some (of_str "/srv/zappy/weights.pt");
         profile := "prod";
         log_file := of_str "/srv/zappy/logs/run.jsonl" |}
      Demo.world0.
Proof.
  apply (run_reads Demo.sim_sys (Demo.ctx 20)); try reflexivity.
  cbn. done.
Defined.
